(** * relay: the connection manager of relay.go, over an abstract AMQP client

    The development embeds [New], [getConn], [watchConn], [getChan],
    [declareQueue], [Relay.Close], [Relay.Consumer] and [Relay.Publisher]
    as state-passing functions.  The AMQP client library
    (github.com/streadway/amqp) and the broker behind it are an interface
    ([Amqp]) over an arbitrary outside-world state; every call the relay
    makes is written to a trace together with its result, so that statements
    such as "the exchange is declared" or "each connection is closed once"
    are statements about that trace.

    Layout: the data, the functions of relay.go, the Consumer and Publisher
    methods, a reference broker, the vocabulary of the statements and sample
    values; then the facts, one section per function, and runs of the
    statements on the reference broker. *)

From stdpp Require Import base option list strings pretty gmap.
From Stdlib Require Import ZArith Lia.

Local Open Scope string_scope.
Local Open Scope list_scope.
Local Open Scope Z_scope.

(** ** Values shared with the client library *)

(** Go's [error]: [nil] is [None] of [option error].  Errors are told apart
    by identity; [Error()] is [error_string]. *)
Inductive error : Type :=
  | ChannelClosed                 (* var ChannelClosed = fmt.Errorf("Channel closed!") *)
  | Errorf (msg : string)         (* any other value made by fmt.Errorf *)
  | LibError (msg : string)       (* an error value handed back by the amqp library *)
  | SpecError (name : string).    (* an error the specification names without its text *)

Definition error_string (e : error) : string :=
  match e with
  | ChannelClosed => "Channel closed!"
  | Errorf m => m
  | LibError m => m
  | SpecError n => n
  end.

#[global] Instance error_eq_dec : EqDecision error.
Proof. solve_decision. Defined.

(** A Go result pair [(T, error)]. *)
Inductive result (A : Type) : Type :=
  | Ok (a : A)
  | Err (e : error).
Arguments Ok {A} a.
Arguments Err {A} e.

(** amqp.Error as delivered on a NotifyClose channel. *)
Record AmqpError : Type := mkAmqpError {
  Code : Z;
  Reason : string;
  Server : bool;
  Recover : bool
}.

(** amqp.URI, the fields getConn fills in. *)
Record URI : Type := mkURI {
  Scheme : string;
  Host : string;
  UPort : Z;
  UUsername : string;
  UPassword : string;
  UVhost : string
}.

#[global] Instance URI_eq_dec : EqDecision URI.
Proof. solve_decision. Defined.

(** Handles: *amqp.Connection and *amqp.Channel are pointers, compared by
    identity; a delivery stream is the receive end of a Go channel. *)
Abbreviation Conn := nat (only parsing).
Abbreviation Chan := nat (only parsing).
Abbreviation Stream := nat (only parsing).

(** The Serializer interface value held by the configuration.  Its methods
    live outside relay.go and come in through [Amqp] below. *)
Inductive Serializer : Type :=
  | GOBSerializer
  | UserSerializer (id : nat).

(** amqp.Transient / amqp.Persistent. *)
Inductive DeliveryMode : Type := Transient | Persistent.

(** ** Config and Relay *)

Record Config : Type := mkConfig {
  Addr : string;
  Port : Z;
  Vhost : string;
  Username : string;
  Password : string;
  EnableTLS : bool;
  PrefetchCount : Z;
  EnableMultiAck : bool;
  DisablePublishConfirm : bool;
  DisablePersistence : bool;
  Exchange : string;
  CSerializer : option Serializer       (* nil interface value = None *)
}.

Definition set_Addr (v : string) (c : Config) : Config :=
  mkConfig v (Port c) (Vhost c) (Username c) (Password c) (EnableTLS c)
    (PrefetchCount c) (EnableMultiAck c) (DisablePublishConfirm c)
    (DisablePersistence c) (Exchange c) (CSerializer c).
Definition set_Port (v : Z) (c : Config) : Config :=
  mkConfig (Addr c) v (Vhost c) (Username c) (Password c) (EnableTLS c)
    (PrefetchCount c) (EnableMultiAck c) (DisablePublishConfirm c)
    (DisablePersistence c) (Exchange c) (CSerializer c).
Definition set_Vhost (v : string) (c : Config) : Config :=
  mkConfig (Addr c) (Port c) v (Username c) (Password c) (EnableTLS c)
    (PrefetchCount c) (EnableMultiAck c) (DisablePublishConfirm c)
    (DisablePersistence c) (Exchange c) (CSerializer c).
Definition set_Username (v : string) (c : Config) : Config :=
  mkConfig (Addr c) (Port c) (Vhost c) v (Password c) (EnableTLS c)
    (PrefetchCount c) (EnableMultiAck c) (DisablePublishConfirm c)
    (DisablePersistence c) (Exchange c) (CSerializer c).
Definition set_Password (v : string) (c : Config) : Config :=
  mkConfig (Addr c) (Port c) (Vhost c) (Username c) v (EnableTLS c)
    (PrefetchCount c) (EnableMultiAck c) (DisablePublishConfirm c)
    (DisablePersistence c) (Exchange c) (CSerializer c).
Definition set_Exchange (v : string) (c : Config) : Config :=
  mkConfig (Addr c) (Port c) (Vhost c) (Username c) (Password c) (EnableTLS c)
    (PrefetchCount c) (EnableMultiAck c) (DisablePublishConfirm c)
    (DisablePersistence c) v (CSerializer c).
Definition set_Serializer (v : option Serializer) (c : Config) : Config :=
  mkConfig (Addr c) (Port c) (Vhost c) (Username c) (Password c) (EnableTLS c)
    (PrefetchCount c) (EnableMultiAck c) (DisablePublishConfirm c)
    (DisablePersistence c) (Exchange c) v.

(** The two connection slots of a Relay; [getChan] and [watchConn] receive
    the address of one of them ([&r.pubConn] or [&r.consConn]). *)
Inductive Role : Type := PubRole | ConsRole.

#[global] Instance Role_eq_dec : EqDecision Role.
Proof. solve_decision. Defined.

(** The embedded sync.Mutex carries no data of its own here: taking and
    releasing it are the trace events [EvLock] and [EvUnlock]. *)
Record Relay : Type := mkRelay {
  conf : Config;
  pubConn : option Conn;
  consConn : option Conn
}.

Definition load (role : Role) (r : Relay) : option Conn :=
  match role with
  | PubRole => pubConn r
  | ConsRole => consConn r
  end.

Definition store (role : Role) (v : option Conn) (r : Relay) : Relay :=
  match role with
  | PubRole => mkRelay (conf r) v (consConn r)
  | ConsRole => mkRelay (conf r) (pubConn r) v
  end.

(** Consumer{r.conf, consName, name, ch, readCh, 0, false}: seven positional
    fields.  A nil channel is [None]. *)
Record Consumer : Type := mkConsumer {
  c_conf : Config;
  c_consName : string;
  c_queue : string;
  c_channel : option Chan;
  c_deliverCh : Stream;
  c_lastMsg : Z;
  c_needAck : bool
}.

Record Publisher : Type := mkPublisher {
  p_conf : Config;
  p_queue : string;
  p_channel : option Chan;
  p_contentType : string;
  p_mode : DeliveryMode;
  p_ackCh : option Chan;
  p_nackCh : option Chan;
  p_errCh : option Chan
}.

(** What a receive on a delivery stream finds. *)
Inductive Arrival : Type :=
  | Delivered (tag : Z) (body : string)
  | StreamClosed
  | NoDelivery.              (* nothing there: the receiver keeps waiting *)

(** What a publisher in confirm mode hears back. *)
Inductive Confirmation : Type :=
  | ConfirmAck
  | ConfirmNack
  | ConfirmClosed.

(** A call that may still be waiting. *)
Inductive Blocking (A : Type) : Type :=
  | Returns (a : A)
  | StillBlocked.
Arguments Returns {A} a.
Arguments StillBlocked {A}.

(** ** Trace of what the relay does to the outside *)

Inductive Finalizer : Type :=
  | RelayClose                (* Close of the Relay *)
  | ConsumerClose (ch : Chan) (* Close of the Consumer that owns ch *)
  | PublisherClose (ch : Chan).

(** One event per call, with what the call returned. *)
Inductive Event : Type :=
  | EvLock
  | EvUnlock
  | EvStore (role : Role) (v : option Conn)
  | EvDial (u : URI) (res : result Conn)
  | EvNotifyClose (c : Conn)
  | EvGoWatch (role : Role) (c : Conn)
  | EvChannel (c : Conn) (res : result Chan)
  | EvExchangeDeclare (ch : Chan) (name kind : string)
      (durable autoDelete internal noWait : bool) (res : option error)
  | EvQueueDeclare (ch : Chan) (name : string)
      (durable autoDelete exclusive noWait : bool) (res : option error)
  | EvQueueBind (ch : Chan) (name key exchange : string) (noWait : bool)
      (res : option error)
  | EvQos (ch : Chan) (count size : Z) (global : bool) (res : option error)
  | EvChannelName (res : result string)
  | EvConsume (ch : Chan) (queue consumer : string)
      (autoAck exclusive noLocal noWait : bool) (res : result Stream)
  | EvChNotifyClose (ch : Chan)
  | EvNotifyConfirm (ch : Chan)
  | EvConfirm (ch : Chan) (noWait : bool) (res : option error)
  | EvConnClose (c : Conn) (res : option error)
  | EvSetFinalizer (f : Finalizer)
  | EvLogErr (e : AmqpError)
  | EvRecv (s : Stream) (a : Arrival)
  | EvAck (ch : Chan) (tag : Z) (multiple : bool) (res : option error)
  | EvNack (ch : Chan) (tag : Z) (multiple requeue : bool) (res : option error)
  | EvPublish (ch : Chan) (exchange key : string) (mode : DeliveryMode)
      (contentType body : string) (res : option error)
  | EvChClose (ch : Chan) (res : option error)
  | EvAwaitConfirm (ch : Chan) (res : option Confirmation).

#[global] Instance result_eq_dec {A} `{EqDecision A} : EqDecision (result A).
Proof. solve_decision. Defined.
#[global] Instance Arrival_eq_dec : EqDecision Arrival.
Proof. solve_decision. Defined.
#[global] Instance Confirmation_eq_dec : EqDecision Confirmation.
Proof. solve_decision. Defined.
#[global] Instance AmqpError_eq_dec : EqDecision AmqpError.
Proof. solve_decision. Defined.
#[global] Instance DeliveryMode_eq_dec : EqDecision DeliveryMode.
Proof. solve_decision. Defined.
#[global] Instance Finalizer_eq_dec : EqDecision Finalizer.
Proof. solve_decision. Defined.
#[global] Instance Event_eq_dec : EqDecision Event.
Proof. solve_decision. Defined.

(** ** The outside world

    [S] is the state of everything outside relay.go.  The fields are the
    calls relay.go makes, with the arguments it passes; each returns what
    the Go call returns, together with the next outside state.  The first
    five stand for helpers of the package whose files are not part of
    relay.go (queueName and channelName, the methods of a Serializer); the
    last six are what the Consumer and Publisher methods need. *)
Class Amqp (S : Type) : Type := {
  queueName : string -> string;
  channelName : S -> result string * S;
  ContentType : Serializer -> string;
  Encode : Serializer -> string -> result string;
  Decode : Serializer -> string -> string -> option error * string;
  (* amqp.Dial(uri.String()): the URI is handed over as the record *)
  Dial : URI -> S -> result Conn * S;
  Connection_NotifyClose : Conn -> S -> unit * S;
  Connection_Channel : Conn -> S -> result Chan * S;
  Connection_Close : Conn -> S -> option error * S;
  Channel_ExchangeDeclare :
    Chan -> string -> string -> bool -> bool -> bool -> bool ->
    S -> option error * S;
  Channel_QueueDeclare :
    Chan -> string -> bool -> bool -> bool -> bool -> S -> option error * S;
  Channel_QueueBind :
    Chan -> string -> string -> string -> bool -> S -> option error * S;
  Channel_Qos : Chan -> Z -> Z -> bool -> S -> option error * S;
  Channel_Consume :
    Chan -> string -> string -> bool -> bool -> bool -> bool ->
    S -> result Stream * S;
  Channel_NotifyClose : Chan -> S -> unit * S;
  Channel_NotifyConfirm : Chan -> S -> unit * S;
  Channel_Confirm : Chan -> bool -> S -> option error * S;
  Stream_Recv : Stream -> S -> Arrival * S;
  Channel_Ack : Chan -> Z -> bool -> S -> option error * S;
  Channel_Nack : Chan -> Z -> bool -> bool -> S -> option error * S;
  Channel_Publish :
    Chan -> string -> string -> DeliveryMode -> string -> string ->
    S -> option error * S;
  Channel_Close : Chan -> S -> option error * S;
  Confirm_Await : Chan -> S -> option Confirmation * S
}.

Record World (S : Type) : Type := mkWorld {
  outside : S;
  trace : list Event
}.
Arguments mkWorld {S} outside trace.
Arguments outside {S} w.
Arguments trace {S} w.

(** State passing over the world. *)
Definition M (S A : Type) : Type := World S -> A * World S.

#[global] Instance M_ret {S} : MRet (M S) := fun A a w => (a, w).

#[global] Instance M_bind {S} : MBind (M S) :=
  fun A B k m w => let (a, w1) := m w in k a w1.

(** Records an event of the relay itself. *)
Definition emit {S} (ev : Event) : M S unit :=
  fun w => (tt, mkWorld (outside w) (trace w ++ [ev])).

(** Performs a call to the outside and records it with its result. *)
Definition call {S A} (ev : A -> Event) (op : S -> A * S) : M S A :=
  fun w => let (a, s1) := op (outside w) in (a, mkWorld s1 (trace w ++ [ev a])).

(** The events a computation adds when started in [w]. *)
Definition added {S A} (m : M S A) (w : World S) : list Event :=
  drop (length (trace w)) (trace (snd (m w))).

(** A receive on the error channel of a connection:
    [err, ok := <-errCh]. *)
Inductive Recv : Type :=
  | Got (e : AmqpError)    (* ok = true *)
  | Closed.                (* ok = false *)

(** A receive that ends the loop of watchConn. *)
Definition stops (x : Recv) : bool :=
  match x with
  | Got e => negb (Recover e)
  | Closed => true
  end.

(** ** relay.go *)

Section RelayGo.
Context {S : Type} `{!Amqp S}.

(** The seven "set the defaults if missing" blocks of New, in order. *)
Definition fillAddr (c : Config) : Config :=
  if decide (Addr c = "") then set_Addr "localhost" c else c.

Definition fillPort (c : Config) : Config :=
  if decide (Port c = 0)
  then (if EnableTLS c then set_Port 5671 c else set_Port 5672 c)
  else c.

Definition fillVhost (c : Config) : Config :=
  if decide (Vhost c = "") then set_Vhost "/" c else c.

Definition fillUsername (c : Config) : Config :=
  if decide (Username c = "") then set_Username "guest" c else c.

Definition fillPassword (c : Config) : Config :=
  if decide (Password c = "") then set_Password "guest" c else c.

Definition fillExchange (c : Config) : Config :=
  if decide (Exchange c = "") then set_Exchange "relay" c else c.

Definition fillSerializer (c : Config) : Config :=
  match CSerializer c with
  | None => set_Serializer (Some GOBSerializer) c
  | Some _ => c
  end.

(** New: fills the unset fields of the configuration in place, builds the
    Relay around it and registers a finalizer.  It talks to nobody. *)
Definition New (c : Config) : M S (Relay * option error) :=
  let c := fillAddr c in
  let c := fillPort c in
  let c := fillVhost c in
  let c := fillUsername c in
  let c := fillPassword c in
  let c := fillExchange c in
  let c := fillSerializer c in
  let r := mkRelay c None None in
  emit (EvSetFinalizer RelayClose);;
  mret (r, None).

(** The URI getConn assembles before it dials. *)
Definition dialURI (cf : Config) : URI :=
  let uri := mkURI "" (Addr cf) (Port cf) (Username cf) (Password cf) (Vhost cf) in
  if EnableTLS cf
  then mkURI "amqps" (Host uri) (UPort uri) (UUsername uri) (UPassword uri) (UVhost uri)
  else mkURI "amqp" (Host uri) (UPort uri) (UUsername uri) (UPassword uri) (UVhost uri).

Definition getConn (r : Relay) : M S (result Conn) :=
  let uri := dialURI (conf r) in
  call (EvDial uri) (Dial uri).

(** [*conn = v] on one of the two slots. *)
Definition setConn (role : Role) (v : option Conn) (r : Relay) : M S Relay :=
  emit (EvStore role v);;
  mret (store role v r).

(** The loop of watchConn over the receives that have happened so far on
    errCh.  The result tells whether the loop has been left; [false] means
    the watcher is still waiting in [<-errCh]. *)
Fixpoint watchLoop (rx : list Recv) : M S bool :=
  match rx with
  | [] => mret false
  | Closed :: _ => mret true
  | Got err :: rest =>
      emit (EvLogErr err);;
      if negb (Recover err) then mret true else watchLoop rest
  end.

Definition watchConn (role : Role) (rx : list Recv) (r : Relay) : M S (bool * Relay) :=
  left_loop ← watchLoop rx;
  if left_loop : bool then
    emit EvLock;;
    r ← setConn role None r;
    emit EvUnlock;;
    mret (true, r)
  else mret (false, r).

(** Lines 138-152 of getChan: a channel on the connection of the slot, and
    the exchange when the connection is new. *)
Definition getChan_channel (c : Conn) (isNew : bool) (r : Relay) : M S (result Chan) :=
  res ← call (EvChannel c) (Connection_Channel c);
  match res with
  | Err err => mret (Err err)
  | Ok ch =>
      if isNew then
        derr ← call (EvExchangeDeclare ch (Exchange (conf r)) "direct" true false false false)
                 (Channel_ExchangeDeclare ch (Exchange (conf r)) "direct" true false false false);
        match derr with
        | Some err =>
            mret (Err (Errorf ("Failed to declare exchange '" +:+ Exchange (conf r)
                                 +:+ "'! Got: " +:+ error_string err)))
        | None => mret (Ok ch)
        end
      else mret (Ok ch)
  end.

Definition getChan_locked (role : Role) (r : Relay) : M S (result Chan * Relay) :=
  match load role r with
  | None =>
      dres ← getConn r;
      match dres with
      | Err err => mret (Err err, r)
      | Ok newConn =>
          r ← setConn role (Some newConn) r;
          call (fun _ => EvNotifyClose newConn) (Connection_NotifyClose newConn);;
          emit (EvGoWatch role newConn);;
          res ← getChan_channel newConn true r;
          mret (res, r)
      end
  | Some c =>
      res ← getChan_channel c false r;
      mret (res, r)
  end.

Definition getChan (role : Role) (r : Relay) : M S (result Chan * Relay) :=
  emit EvLock;;
  out ← getChan_locked role r;
  emit EvUnlock;;
  mret out.

Definition declareQueue (r : Relay) (ch : Chan) (name : string) : M S (option error) :=
  qerr ← call (EvQueueDeclare ch name true false false false)
           (Channel_QueueDeclare ch name true false false false);
  match qerr with
  | Some err =>
      mret (Some (Errorf ("Failed to declare queue '" +:+ name
                            +:+ "'! Got: " +:+ error_string err)))
  | None =>
      berr ← call (EvQueueBind ch name name (Exchange (conf r)) false)
               (Channel_QueueBind ch name name (Exchange (conf r)) false);
      match berr with
      | Some err =>
          mret (Some (Errorf ("Failed to bind queue '" +:+ name
                                +:+ "'! Got: " +:+ error_string err)))
      | None => mret None
      end
  end.

(** One of the two [if r.xConn != nil] blocks of Close. *)
Definition closeSlot (role : Role) (errors : list error) (r : Relay)
  : M S (list error * Relay) :=
  match load role r with
  | Some c =>
      cerr ← call (EvConnClose c) (Connection_Close c);
      let errors := match cerr with
                    | Some err => errors ++ [err]
                    | None => errors
                    end in
      r ← setConn role None r;
      mret (errors, r)
  | None => mret (errors, r)
  end.

Definition closeResult (errors : list error) : option error :=
  match errors with
  | [e0] => Some e0
  | [e0; e1] =>
      Some (Errorf ("Failed to Close! Got " +:+ error_string e0
                      +:+ " and " +:+ error_string e1))
  | _ => None
  end.

Definition Relay_Close (r : Relay) : M S (option error * Relay) :=
  emit EvLock;;
  '(errors, r) ← closeSlot PubRole [] r;
  '(errors, r) ← closeSlot ConsRole errors r;
  emit EvUnlock;;
  mret (closeResult errors, r).

Definition Relay_Consumer (queue : string) (r : Relay) : M S (result Consumer * Relay) :=
  '(cres, r) ← getChan ConsRole r;
  match cres with
  | Err err => mret (Err err, r)
  | Ok ch =>
      let name := queueName queue in
      derr ← declareQueue r ch name;
      match derr with
      | Some err => mret (Err err, r)
      | None =>
          qerr ← (if decide (0 < PrefetchCount (conf r))
                  then call (EvQos ch (PrefetchCount (conf r)) 0 false)
                         (Channel_Qos ch (PrefetchCount (conf r)) 0 false)
                  else mret None);
          match qerr with
          | Some err =>
              mret (Err (Errorf ("Failed to set Qos prefetch! Got: "
                                   +:+ error_string err)), r)
          | None =>
              nres ← call EvChannelName channelName;
              match nres with
              | Err err => mret (Err err, r)
              | Ok consName =>
                  sres ← call (EvConsume ch name consName false false false false)
                           (Channel_Consume ch name consName false false false false);
                  match sres with
                  | Err err =>
                      mret (Err (Errorf ("Failed to start consuming messages! Got: "
                                           +:+ error_string err)), r)
                  | Ok readCh =>
                      let cons := mkConsumer (conf r) consName name (Some ch) readCh 0 false in
                      emit (EvSetFinalizer (ConsumerClose ch));;
                      mret (Ok cons, r)
                  end
              end
          end
      end
  end.

(** [r.conf.Serializer]: every Relay comes from New, which has replaced a
    nil serializer by the GOB one. *)
Definition confSerializer (cf : Config) : Serializer :=
  match CSerializer cf with
  | Some ser => ser
  | None => GOBSerializer
  end.

Definition Relay_Publisher (queue : string) (r : Relay) : M S (result Publisher * Relay) :=
  '(cres, r) ← getChan PubRole r;
  match cres with
  | Err err => mret (Err err, r)
  | Ok ch =>
      let name := queueName queue in
      derr ← declareQueue r ch name;
      match derr with
      | Some err => mret (Err err, r)
      | None =>
          let contentType := ContentType (confSerializer (conf r)) in
          let mode := if DisablePersistence (conf r) then Transient else Persistent in
          let pub := mkPublisher (conf r) name (Some ch) contentType mode None None None in
          if negb (DisablePublishConfirm (conf r)) then
            call (fun _ => EvChNotifyClose ch) (Channel_NotifyClose ch);;
            call (fun _ => EvNotifyConfirm ch) (Channel_NotifyConfirm ch);;
            cerr ← call (EvConfirm ch false) (Channel_Confirm ch false);
            match cerr with
            | Some err =>
                mret (Err (Errorf ("Failed to put publisher in confirm mode! Got: "
                                     +:+ error_string err)), r)
            | None =>
                let pub := mkPublisher (p_conf pub) (p_queue pub) (p_channel pub)
                             (p_contentType pub) (p_mode pub)
                             (Some ch) (Some ch) (Some ch) in
                emit (EvSetFinalizer (PublisherClose ch));;
                mret (Ok pub, r)
            end
          else
            emit (EvSetFinalizer (PublisherClose ch));;
            mret (Ok pub, r)
      end
  end.

End RelayGo.

(** ** Consumer and Publisher methods

    consumer.go and publisher.go are not among the sources; the methods
    below follow sections 4.2 and 4.3 of the specification. *)

Section Handles.
Context {S : Type} `{!Amqp S}.

(** The ack-required state error; its text is the one TestDoubleConsume
    compares against. *)
Definition AckRequired : error := Errorf "Ack required before consume!".

Definition DeliveryFailed : error := SpecError "DeliveryFailedError".

(** The state error of an ack or nack with nothing pending. *)
Definition NothingPending : error := SpecError "StateError".

Definition closedConsumer (c : Consumer) : Consumer :=
  mkConsumer (c_conf c) (c_consName c) (c_queue c) None (c_deliverCh c)
    (c_lastMsg c) false.

Definition withPending (tag : Z) (c : Consumer) : Consumer :=
  mkConsumer (c_conf c) (c_consName c) (c_queue c) (c_channel c) (c_deliverCh c)
    tag true.

Definition withoutPending (c : Consumer) : Consumer :=
  mkConsumer (c_conf c) (c_consName c) (c_queue c) (c_channel c) (c_deliverCh c)
    (c_lastMsg c) false.

(** Modelled from the spec: Consumer.Consume (consumer.go is missing).
    Closed consumer: the sentinel.  Single-ack mode with a delivery still
    unacknowledged: the ack-required error, before anything is received.
    Otherwise one receive on the stream; a delivery is decoded into [out]
    and becomes the pending one.  [out] is the content of the caller's
    variable before and after. *)
Definition Consumer_Consume (c : Consumer) (out : string)
  : M S (Blocking (option error * string * Consumer)) :=
  match c_channel c with
  | None => mret (Returns (Some ChannelClosed, out, c))
  | Some _ =>
      if c_needAck c && negb (EnableMultiAck (c_conf c)) then
        mret (Returns (Some AckRequired, out, c))
      else
        a ← call (EvRecv (c_deliverCh c)) (Stream_Recv (c_deliverCh c));
        match a with
        | NoDelivery => mret StillBlocked
        | StreamClosed => mret (Returns (Some ChannelClosed, out, c))
        | Delivered tag body =>
            let '(derr, out) := Decode (confSerializer (c_conf c)) body out in
            mret (Returns (derr, out, withPending tag c))
        end
  end.

(** Modelled from the spec: Consumer.Ack (consumer.go is missing).
    Acknowledges the pending delivery, cumulatively in multi-ack mode, and
    clears the pending state; the sentinel after close. *)
Definition Consumer_Ack (c : Consumer) : M S (option error * Consumer) :=
  match c_channel c with
  | None => mret (Some ChannelClosed, c)
  | Some ch =>
      if c_needAck c then
        aerr ← call (EvAck ch (c_lastMsg c) (EnableMultiAck (c_conf c)))
                 (Channel_Ack ch (c_lastMsg c) (EnableMultiAck (c_conf c)));
        match aerr with
        | Some err => mret (Some err, c)
        | None => mret (None, withoutPending c)
        end
      else mret (Some NothingPending, c)
  end.

(** Modelled from the spec: Consumer.Nack (consumer.go is missing).
    Rejects and requeues, with the cumulative rule of Ack. *)
Definition Consumer_Nack (c : Consumer) : M S (option error * Consumer) :=
  match c_channel c with
  | None => mret (Some ChannelClosed, c)
  | Some ch =>
      if c_needAck c then
        nerr ← call (EvNack ch (c_lastMsg c) (EnableMultiAck (c_conf c)) true)
                 (Channel_Nack ch (c_lastMsg c) (EnableMultiAck (c_conf c)) true);
        match nerr with
        | Some err => mret (Some err, c)
        | None => mret (None, withoutPending c)
        end
      else mret (Some NothingPending, c)
  end.

(** Modelled from the spec: Consumer.Close (consumer.go is missing).
    Idempotent; a pending delivery is nacked before the channel is closed.
    The specification does not say what is returned when the broker refuses
    one of the two calls: the channel is closed in any case and the first
    failure is reported. *)
Definition Consumer_Close (c : Consumer) : M S (option error * Consumer) :=
  match c_channel c with
  | None => mret (None, c)
  | Some ch =>
      nerr ← (if c_needAck c then
                call (EvNack ch (c_lastMsg c) (EnableMultiAck (c_conf c)) true)
                  (Channel_Nack ch (c_lastMsg c) (EnableMultiAck (c_conf c)) true)
              else mret None);
      cerr ← call (EvChClose ch) (Channel_Close ch);
      mret (match nerr with Some err => Some err | None => cerr end,
            closedConsumer c)
  end.

Definition closedPublisher (p : Publisher) : Publisher :=
  mkPublisher (p_conf p) (p_queue p) None (p_contentType p) (p_mode p)
    (p_ackCh p) (p_nackCh p) (p_errCh p).

(** Modelled from the spec: Publisher.Publish (publisher.go is missing).
    The sentinel after close; otherwise the value is serialized and
    published to the exchange with the queue name as routing key, and in
    confirm mode the call waits for the ack, the nack or the close
    notification. *)
Definition Publisher_Publish (p : Publisher) (value : string)
  : M S (Blocking (option error)) :=
  match p_channel p with
  | None => mret (Returns (Some ChannelClosed))
  | Some ch =>
      match Encode (confSerializer (p_conf p)) value with
      | Err err => mret (Returns (Some err))
      | Ok body =>
          perr ← call (EvPublish ch (Exchange (p_conf p)) (p_queue p) (p_mode p)
                         (p_contentType p) body)
                   (Channel_Publish ch (Exchange (p_conf p)) (p_queue p) (p_mode p)
                      (p_contentType p) body);
          match perr with
          | Some err => mret (Returns (Some err))
          | None =>
              match p_ackCh p with
              | None => mret (Returns None)
              | Some _ =>
                  heard ← call (EvAwaitConfirm ch) (Confirm_Await ch);
                  match heard with
                  | None => mret StillBlocked
                  | Some ConfirmAck => mret (Returns None)
                  | Some ConfirmNack => mret (Returns (Some DeliveryFailed))
                  | Some ConfirmClosed => mret (Returns (Some ChannelClosed))
                  end
              end
          end
      end
  end.

(** Modelled from the spec: Publisher.Close (publisher.go is missing).
    Idempotent; closes the channel. *)
Definition Publisher_Close (p : Publisher) : M S (option error * Publisher) :=
  match p_channel p with
  | None => mret (None, p)
  | Some ch =>
      cerr ← call (EvChClose ch) (Channel_Close ch);
      mret (cerr, closedPublisher p)
  end.

End Handles.

(** ** A reference broker

    The broker is an external collaborator (section 6 of the specification
    lists the calls it offers, the glossary what queues, delivery tags and
    multi-ack mean).  This in-memory one has one listening address, durable
    queues and per-channel unacknowledged deliveries; a nack with requeue
    and the close of a channel put unacknowledged deliveries back at the head
    of their queue.  It instantiates [Amqp], so that the functions above can
    be run, and it is the broker side of the statement about requeueing. *)

Module Mem.

Record ChanSt : Type := mkChanSt {
  ch_conn : Conn;
  ch_open : bool;
  ch_queue : option string;                 (* queue being consumed *)
  ch_unacked : list (Z * string * string);  (* tag, queue, body; oldest first *)
  ch_nexttag : Z
}.

Record State : Type := mkState {
  m_host : string;
  m_port : Z;
  m_next : nat;                             (* next fresh handle *)
  m_conns : gmap nat bool;                  (* connection -> still open *)
  m_chans : gmap nat ChanSt;
  m_exchanges : gmap string string;         (* exchange -> kind *)
  m_queues : gmap string (list string);     (* queue -> ready messages *)
  m_bindings : list (string * string * string)  (* exchange, key, queue *)
}.

Definition ErrClosed : error := LibError "channel/connection is not open".
Definition ErrRefused : error := LibError "dial tcp: connection refused".
Definition ErrPrecondition : error := LibError "Exception (406) Reason: PRECONDITION_FAILED".
Definition ErrNotFound : error := LibError "Exception (404) Reason: NOT_FOUND".

Definition ready (q : string) (qs : gmap string (list string)) : list string :=
  default [] (qs !! q).

Definition push_front (q body : string) (qs : gmap string (list string))
  : gmap string (list string) :=
  <[q := body :: ready q qs]> qs.

Definition push_back (q body : string) (qs : gmap string (list string))
  : gmap string (list string) :=
  <[q := (ready q qs ++ [body])]> qs.

(** Puts deliveries back at the head of their queues, oldest first. *)
Definition requeue (u : list (Z * string * string)) (qs : gmap string (list string))
  : gmap string (list string) :=
  foldr (fun x acc => push_front x.1.2 x.2 acc) qs u.

Definition usable (m : State) (ch : Chan) : bool :=
  match m_chans m !! ch with
  | Some st => ch_open st && bool_decide (m_conns m !! ch_conn st = Some true)
  | None => false
  end.

Definition set_chans (f : gmap nat ChanSt) (m : State) : State :=
  mkState (m_host m) (m_port m) (m_next m) (m_conns m) f
    (m_exchanges m) (m_queues m) (m_bindings m).

Definition set_queues (q : gmap string (list string)) (m : State) : State :=
  mkState (m_host m) (m_port m) (m_next m) (m_conns m) (m_chans m)
    (m_exchanges m) q (m_bindings m).

Definition dial (u : URI) (m : State) : result Conn * State :=
  if decide (Host u = m_host m ∧ UPort u = m_port m) then
    (Ok (m_next m),
     mkState (m_host m) (m_port m) (Datatypes.S (m_next m))
       (<[m_next m := true]> (m_conns m)) (m_chans m)
       (m_exchanges m) (m_queues m) (m_bindings m))
  else (Err ErrRefused, m).

Definition connChannel (c : Conn) (m : State) : result Chan * State :=
  if bool_decide (m_conns m !! c = Some true) then
    (Ok (m_next m),
     mkState (m_host m) (m_port m) (Datatypes.S (m_next m)) (m_conns m)
       (<[m_next m := mkChanSt c true None [] 1]> (m_chans m))
       (m_exchanges m) (m_queues m) (m_bindings m))
  else (Err ErrClosed, m).

(** Closing a connection closes its channels; their unacknowledged
    deliveries go back to the queues. *)
Definition connClose (c : Conn) (m : State) : option error * State :=
  if bool_decide (m_conns m !! c = Some true) then
    let mine := filter (fun kv => ch_conn kv.2 = c ∧ ch_open kv.2 = true) (m_chans m) in
    let qs := map_fold (fun _ st acc => requeue (ch_unacked st) acc) (m_queues m) mine in
    let chans := (fun st => if decide (ch_conn st = c)
                            then mkChanSt (ch_conn st) false (ch_queue st) [] (ch_nexttag st)
                            else st) <$> m_chans m in
    (None,
     mkState (m_host m) (m_port m) (m_next m) (<[c := false]> (m_conns m))
       chans (m_exchanges m) qs (m_bindings m))
  else (Some ErrClosed, m).

Definition closeChanSt (st : ChanSt) : ChanSt :=
  mkChanSt (ch_conn st) false (ch_queue st) [] (ch_nexttag st).

(** A channel exception closes the channel. *)
Definition fail_channel (ch : Chan) (e : error) (m : State) : option error * State :=
  match m_chans m !! ch with
  | Some st =>
      (Some e, set_queues (requeue (ch_unacked st) (m_queues m))
                 (set_chans (<[ch := closeChanSt st]> (m_chans m)) m))
  | None => (Some e, m)
  end.

Definition exchangeDeclare (ch : Chan) (name kind : string)
    (durable autoDelete internal noWait : bool) (m : State) : option error * State :=
  if usable m ch then
    match m_exchanges m !! name with
    | Some k =>
        if decide (k = kind) then (None, m) else fail_channel ch ErrPrecondition m
    | None =>
        (None,
         mkState (m_host m) (m_port m) (m_next m) (m_conns m) (m_chans m)
           (<[name := kind]> (m_exchanges m)) (m_queues m) (m_bindings m))
    end
  else (Some ErrClosed, m).

Definition queueDeclare (ch : Chan) (name : string)
    (durable autoDelete exclusive noWait : bool) (m : State) : option error * State :=
  if usable m ch then
    match m_queues m !! name with
    | Some _ => (None, m)
    | None => (None, set_queues (<[name := []]> (m_queues m)) m)
    end
  else (Some ErrClosed, m).

Definition queueBind (ch : Chan) (name key exchange : string) (noWait : bool)
    (m : State) : option error * State :=
  if usable m ch then
    match m_queues m !! name, m_exchanges m !! exchange with
    | Some _, Some _ =>
        (None,
         mkState (m_host m) (m_port m) (m_next m) (m_conns m) (m_chans m)
           (m_exchanges m) (m_queues m)
           (if bool_decide ((exchange, key, name) ∈ m_bindings m)
            then m_bindings m
            else (m_bindings m ++ [(exchange, key, name)])))
    | _, _ => fail_channel ch ErrNotFound m
    end
  else (Some ErrClosed, m).

Definition qos (ch : Chan) (count size : Z) (global : bool) (m : State)
  : option error * State :=
  if usable m ch then (None, m) else (Some ErrClosed, m).

Definition consume (ch : Chan) (queue consumer : string)
    (autoAck exclusive noLocal noWait : bool) (m : State) : result Stream * State :=
  if usable m ch then
    match m_chans m !! ch, m_queues m !! queue with
    | Some st, Some _ =>
        (Ok ch,
         set_chans (<[ch := mkChanSt (ch_conn st) (ch_open st) (Some queue)
                              (ch_unacked st) (ch_nexttag st)]> (m_chans m)) m)
    | _, _ => (Err ErrNotFound, m)
    end
  else (Err ErrClosed, m).

(** The stream of a consumer is addressed by its channel; a delivery is
    handed over when the consumer asks for it. *)
Definition recv (s : Stream) (m : State) : Arrival * State :=
  if usable m s then
    match m_chans m !! s with
    | Some st =>
        match ch_queue st with
        | Some q =>
            match ready q (m_queues m) with
            | body :: rest =>
                (Delivered (ch_nexttag st) body,
                 set_queues (<[q := rest]> (m_queues m))
                   (set_chans
                      (<[s := mkChanSt (ch_conn st) (ch_open st) (ch_queue st)
                                (ch_unacked st ++ [(ch_nexttag st, q, body)])
                                (ch_nexttag st + 1)]> (m_chans m)) m))
            | [] => (NoDelivery, m)
            end
        | None => (NoDelivery, m)
        end
    | None => (StreamClosed, m)
    end
  else (StreamClosed, m).

(** The deliveries an ack or nack with this tag covers. *)
Definition covered (tag : Z) (multiple : bool) (x : Z * string * string) : bool :=
  if multiple then x.1.1 <=? tag else x.1.1 =? tag.

Definition settle (ch : Chan) (tag : Z) (multiple requeued : bool) (m : State)
  : option error * State :=
  if usable m ch then
    match m_chans m !! ch with
    | Some st =>
        let hit := List.filter (covered tag multiple) (ch_unacked st) in
        let rest := List.filter (fun x => negb (covered tag multiple x)) (ch_unacked st) in
        match hit with
        | [] => fail_channel ch ErrPrecondition m
        | _ =>
            (None,
             set_queues (if requeued then requeue hit (m_queues m) else m_queues m)
               (set_chans
                  (<[ch := mkChanSt (ch_conn st) (ch_open st) (ch_queue st) rest
                             (ch_nexttag st)]> (m_chans m)) m))
        end
    | None => (Some ErrClosed, m)
    end
  else (Some ErrClosed, m).

Definition publish (ch : Chan) (exchange key : string) (mode : DeliveryMode)
    (contentType body : string) (m : State) : option error * State :=
  if usable m ch then
    let targets := List.filter (fun b => bool_decide (b.1.1 = exchange ∧ b.1.2 = key))
                     (m_bindings m) in
    (None, set_queues (foldl (fun acc b => push_back b.2 body acc) (m_queues m) targets) m)
  else (Some ErrClosed, m).

Definition chanClose (ch : Chan) (m : State) : option error * State :=
  if usable m ch then
    match m_chans m !! ch with
    | Some st =>
        (None, set_queues (requeue (ch_unacked st) (m_queues m))
                 (set_chans (<[ch := closeChanSt st]> (m_chans m)) m))
    | None => (Some ErrClosed, m)
    end
  else (Some ErrClosed, m).

Definition await (ch : Chan) (m : State) : option Confirmation * State :=
  if usable m ch then (Some ConfirmAck, m) else (Some ConfirmClosed, m).

Definition freshName (m : State) : result string * State :=
  (Ok ("relay:" +:+ pretty (m_next m)),
   mkState (m_host m) (m_port m) (Datatypes.S (m_next m)) (m_conns m) (m_chans m)
     (m_exchanges m) (m_queues m) (m_bindings m)).

#[global] Instance broker : Amqp State := {|
  queueName := fun q => q;
  channelName := freshName;
  ContentType := fun s => match s with
                          | GOBSerializer => "binary/gob"
                          | UserSerializer _ => "application/octet-stream"
                          end;
  Encode := fun _ v => Ok v;
  Decode := fun _ body _ => (None, body);
  Dial := dial;
  Connection_NotifyClose := fun _ m => (tt, m);
  Connection_Channel := connChannel;
  Connection_Close := connClose;
  Channel_ExchangeDeclare := exchangeDeclare;
  Channel_QueueDeclare := queueDeclare;
  Channel_QueueBind := queueBind;
  Channel_Qos := qos;
  Channel_Consume := consume;
  Channel_NotifyClose := fun _ m => (tt, m);
  Channel_NotifyConfirm := fun _ m => (tt, m);
  Channel_Confirm := fun ch _ m => if usable m ch then (None, m) else (Some ErrClosed, m);
  Stream_Recv := recv;
  Channel_Ack := fun ch tag multiple => settle ch tag multiple false;
  Channel_Nack := fun ch tag multiple requeued =>
                    settle ch tag multiple requeued;
  Channel_Publish := publish;
  Channel_Close := chanClose;
  Confirm_Await := await
|}.

(** A broker listening on localhost:5672 with nothing declared. *)
Definition boot : State :=
  mkState "localhost" 5672 0 ∅ ∅ ∅ ∅ [].

Definition start : World State := mkWorld boot [].



End Mem.

(** ** Vocabulary of the statements *)

Section Vocabulary.
Context {S : Type} `{!Amqp S}.

(** The Relay that New returns. *)
Definition newRelay (c : Config) (w : World S) : Relay := (New c w).1.1.

(** What closing the connection of one slot answers, and the outside state
    afterwards. *)
Definition slotClose (slot : option Conn) (s : S) : option error * S :=
  match slot with
  | Some c => Connection_Close c s
  | None => (None, s)
  end.

(** The events of one [if r.xConn != nil] block. *)
Definition slotEvents (role : Role) (slot : option Conn) (res : option error)
  : list Event :=
  match slot with
  | Some c => [EvConnClose c res; EvStore role None]
  | None => []
  end.

(** A log line of the watcher. *)
Definition isLog (ev : Event) : Prop := exists e, ev = EvLogErr e.

(** The error getChan makes of a failed exchange declaration. *)
Definition declareError (r : Relay) (err : error) : error :=
  Errorf ("Failed to declare exchange '" +:+ Exchange (conf r)
            +:+ "'! Got: " +:+ error_string err).

(** What getChan does first on an empty slot whose dial succeeds. *)
Definition dialEvents (role : Role) (r : Relay) (nc : Conn) : list Event :=
  [EvLock; EvDial (dialURI (conf r)) (Ok nc); EvStore role (Some nc);
   EvNotifyClose nc; EvGoWatch role nc].

(** The six ways through getChan: result, Relay afterwards, events. *)
Inductive getChanRun (role : Role) (r : Relay)
  : result Chan -> Relay -> list Event -> Prop :=
  | Run_cached (c : Conn) (ch : Chan) :
      load role r = Some c ->
      getChanRun role r (Ok ch) r [EvLock; EvChannel c (Ok ch); EvUnlock]
  | Run_cached_no_channel (c : Conn) (e : error) :
      load role r = Some c ->
      getChanRun role r (Err e) r [EvLock; EvChannel c (Err e); EvUnlock]
  | Run_no_dial (e : error) :
      load role r = None ->
      getChanRun role r (Err e) r
        [EvLock; EvDial (dialURI (conf r)) (Err e); EvUnlock]
  | Run_fresh_no_channel (nc : Conn) (e : error) :
      load role r = None ->
      getChanRun role r (Err e) (store role (Some nc) r)
        (dialEvents role r nc ++ [EvChannel nc (Err e); EvUnlock])
  | Run_fresh (nc : Conn) (ch : Chan) :
      load role r = None ->
      getChanRun role r (Ok ch) (store role (Some nc) r)
        (dialEvents role r nc ++
         [EvChannel nc (Ok ch);
          EvExchangeDeclare ch (Exchange (conf r)) "direct" true false false false None;
          EvUnlock])
  | Run_fresh_no_exchange (nc : Conn) (ch : Chan) (e : error) :
      load role r = None ->
      getChanRun role r (Err (declareError r e)) (store role (Some nc) r)
        (dialEvents role r nc ++
         [EvChannel nc (Ok ch);
          EvExchangeDeclare ch (Exchange (conf r)) "direct" true false false false (Some e);
          EvUnlock]).

(** [n] calls of getChan on the same slot, one after the other. *)
Fixpoint getChanTimes (role : Role) (n : nat) (r : Relay)
  : M S (list (result Chan) * Relay) :=
  match n with
  | O => mret ([], r)
  | Datatypes.S n' =>
      '(res, r) ← getChan role r;
      '(rest, r) ← getChanTimes role n' r;
      mret (res :: rest, r)
  end.

(** An event of a call that reuses connection [c]. *)
Definition reuses (c : Conn) (ev : Event) : Prop :=
  ev = EvLock \/ ev = EvUnlock \/ exists res, ev = EvChannel c res.

(** No event registers a finalizer. *)
Definition noFinalizer (evs : list Event) : Prop :=
  Forall (fun ev => forall f, ev <> EvSetFinalizer f) evs.

(** A Consumer that holds an unacknowledged delivery. *)
Definition holdsUnacked (c : Consumer) : Prop :=
  c_channel c <> None /\ c_needAck c = true.

(** The other connection slot. *)
Definition otherRole (role : Role) : Role :=
  match role with
  | PubRole => ConsRole
  | ConsRole => PubRole
  end.

(** The number of slots that hold a connection. *)
Definition filled (r : Relay) : nat :=
  (match pubConn r with Some _ => 1 | None => 0 end
   + match consConn r with Some _ => 1 | None => 0 end)%nat.



Definition isLockEvent (ev : Event) : bool :=
  match ev with
  | EvLock | EvUnlock => true
  | _ => false
  end.

(** An event that closes a channel or a connection. *)
Definition isClose (ev : Event) : bool :=
  match ev with
  | EvChClose _ _ | EvConnClose _ _ => true
  | _ => false
  end.

(** An event that reads or writes a connection slot's connection: a store,
    a dial, the opening of a channel or the exchange declaration. *)
Definition isSlotWork (ev : Event) : bool :=
  match ev with
  | EvStore _ _ | EvDial _ _ | EvNotifyClose _ | EvGoWatch _ _
  | EvChannel _ _ | EvExchangeDeclare _ _ _ _ _ _ _ _ => true
  | _ => false
  end.


(** The events of declareQueue when the queue is declared and bound. *)
Definition queueEvents (cf : Config) (ch : Chan) (name : string) : list Event :=
  [EvQueueDeclare ch name true false false false None;
   EvQueueBind ch name name (Exchange cf) false None].

Definition declareQueueError (name : string) (err : error) : error :=
  Errorf ("Failed to declare queue '" +:+ name +:+ "'! Got: " +:+ error_string err).

Definition bindQueueError (name : string) (err : error) : error :=
  Errorf ("Failed to bind queue '" +:+ name +:+ "'! Got: " +:+ error_string err).

(** The ways through declareQueue: result and events. *)
Inductive declareQueueRun (cf : Config) (ch : Chan) (name : string)
  : option error -> list Event -> Prop :=
  | Queue_refused (e : error) :
      declareQueueRun cf ch name (Some (declareQueueError name e))
        [EvQueueDeclare ch name true false false false (Some e)]
  | Bind_refused (e : error) :
      declareQueueRun cf ch name (Some (bindQueueError name e))
        [EvQueueDeclare ch name true false false false None;
         EvQueueBind ch name name (Exchange cf) false (Some e)]
  | Queue_bound :
      declareQueueRun cf ch name None (queueEvents cf ch name).

(** The Qos call of Consumer when it succeeds: made only for a positive
    prefetch count. *)
Definition qosEvents (cf : Config) (ch : Chan) : list Event :=
  if decide (0 < PrefetchCount cf)
  then [EvQos ch (PrefetchCount cf) 0 false None]
  else [].

(** What Consumer does once getChan has returned channel [ch], after the
    queue has been declared and bound: result and events. *)
Inductive consumerTail (cf : Config) (name : string) (ch : Chan)
  : result Consumer -> list Event -> Prop :=
  | Tail_no_qos (e : error) :
      0 < PrefetchCount cf ->
      consumerTail cf name ch
        (Err (Errorf ("Failed to set Qos prefetch! Got: " +:+ error_string e)))
        [EvQos ch (PrefetchCount cf) 0 false (Some e)]
  | Tail_no_name (e : error) :
      consumerTail cf name ch (Err e)
        (qosEvents cf ch ++ [EvChannelName (Err e)])
  | Tail_no_consume (consName : string) (e : error) :
      consumerTail cf name ch
        (Err (Errorf ("Failed to start consuming messages! Got: " +:+ error_string e)))
        (qosEvents cf ch ++
         [EvChannelName (Ok consName);
          EvConsume ch name consName false false false false (Err e)])
  | Tail_consumer (consName : string) (readCh : Stream) :
      consumerTail cf name ch
        (Ok (mkConsumer cf consName name (Some ch) readCh 0 false))
        (qosEvents cf ch ++
         [EvChannelName (Ok consName);
          EvConsume ch name consName false false false false (Ok readCh);
          EvSetFinalizer (ConsumerClose ch)]).

(** The Publisher that Publisher builds before it asks for confirmations. *)
Definition plainPublisher (cf : Config) (name : string) (ch : Chan) : Publisher :=
  mkPublisher cf name (Some ch) (ContentType (confSerializer cf))
    (if DisablePersistence cf then Transient else Persistent) None None None.

(** What Publisher does once getChan has returned channel [ch], after the
    queue has been declared and bound: result and events. *)
Inductive publisherTail (cf : Config) (name : string) (ch : Chan)
  : result Publisher -> list Event -> Prop :=
  | Tail_unconfirmed :
      DisablePublishConfirm cf = true ->
      publisherTail cf name ch (Ok (plainPublisher cf name ch))
        [EvSetFinalizer (PublisherClose ch)]
  | Tail_no_confirm (e : error) :
      DisablePublishConfirm cf = false ->
      publisherTail cf name ch
        (Err (Errorf ("Failed to put publisher in confirm mode! Got: "
                        +:+ error_string e)))
        [EvChNotifyClose ch; EvNotifyConfirm ch; EvConfirm ch false (Some e)]
  | Tail_confirmed :
      DisablePublishConfirm cf = false ->
      publisherTail cf name ch
        (Ok (mkPublisher cf name (Some ch) (ContentType (confSerializer cf))
               (if DisablePersistence cf then Transient else Persistent)
               (Some ch) (Some ch) (Some ch)))
        [EvChNotifyClose ch; EvNotifyConfirm ch; EvConfirm ch false None;
         EvSetFinalizer (PublisherClose ch)].

End Vocabulary.

(** ** Sample runs: configurations, handles and broker states *)

Module Demo.

(** Config{} with nothing set, with TLS only, and the one of TestNoHost. *)
Definition plain : Config :=
  mkConfig "" 0 "" "" "" false 0 false false false "" None.
Definition tls : Config :=
  mkConfig "" 0 "" "" "" true 0 false false false "" None.
Definition nohost : Config :=
  mkConfig "127.0.0.1" 1 "" "" "" false 0 false false false "" None.

Definition filled : Config :=
  mkConfig "localhost" 5672 "/" "guest" "guest" false 0 false false false
    "relay" (Some GOBSerializer).

(** The Relay of [plain]: new, after its first Publisher, after its first
    Consumer. *)
Definition relay0 : Relay := mkRelay filled None None.
Definition relayP : Relay := mkRelay filled (Some 0%nat) None.
Definition relayPC : Relay := mkRelay filled (Some 0%nat) (Some 2%nat).

Definition pub1 : Publisher :=
  mkPublisher filled "test" (Some 1%nat) "binary/gob" Persistent
    (Some 1%nat) (Some 1%nat) (Some 1%nat).
Definition cons1 : Consumer :=
  mkConsumer filled "relay:4" "test" (Some 3%nat) 3%nat 0 false.

(** New, Publisher("test"), Consumer("test"). *)
Definition setup : M Mem.State unit :=
  New plain;; Relay_Publisher "test" relay0;; Relay_Consumer "test" relayP;; mret tt.

Definition ready_world : World Mem.State := (setup Mem.start).2.

(** One message published and taken by the consumer, not acknowledged. *)
Definition held_world : World Mem.State :=
  ((Publisher_Publish pub1 "hello";; Consumer_Consume cons1 "") ready_world).2.

Definition held : Consumer := withPending 1 cons1.

(** A broker on which the exchange "relay" exists with another type. *)
Definition clash : World Mem.State :=
  mkWorld (Mem.mkState "localhost" 5672 0 ∅ ∅ {["relay" := "fanout"]} ∅ []) [].

(** A broker on which both connections of [relayPC] have already gone. *)
Definition gone : World Mem.State :=
  mkWorld (Mem.mkState "localhost" 5672 3
             {[0%nat := false; 2%nat := false]} ∅ ∅ ∅ []) [].


(** A recoverable and a non-recoverable connection error. *)
Definition soft : AmqpError := mkAmqpError 311 "CONTENT_TOO_LARGE" true true.
Definition hard : AmqpError := mkAmqpError 320 "CONNECTION_FORCED" true false.

(** The configuration of TestClosePendingMsg. *)
Definition prefetch : Config :=
  mkConfig "" 0 "" "" "" false 5 true true false "" None.

(** A broker on which both connections of [relayPC] are open and nothing
    has been declared. *)
Definition bare : World Mem.State :=
  mkWorld (Mem.mkState "localhost" 5672 3
             {[0%nat := true; 2%nat := true]} ∅ ∅ ∅ []) [].

End Demo.

(** ** A broker whose connections take no channel

    Every dial succeeds and every attempt to open a channel fails; the other
    calls succeed and do nothing.  The state counts the connections handed
    out. *)

Module Flaky.

Definition NoChannel : error := LibError "channel/connection is not open".

#[global] Instance broker : Amqp nat := {|
  queueName := fun q => q;
  channelName := fun n => (Ok "flaky", n);
  ContentType := fun _ => "binary/gob";
  Encode := fun _ v => Ok v;
  Decode := fun _ body _ => (None, body);
  Dial := fun _ n => (Ok n, Datatypes.S n);
  Connection_NotifyClose := fun _ n => (tt, n);
  Connection_Channel := fun _ n => (Err NoChannel, n);
  Connection_Close := fun _ n => (None, n);
  Channel_ExchangeDeclare := fun _ _ _ _ _ _ _ n => (None, n);
  Channel_QueueDeclare := fun _ _ _ _ _ _ n => (None, n);
  Channel_QueueBind := fun _ _ _ _ _ n => (None, n);
  Channel_Qos := fun _ _ _ _ n => (None, n);
  Channel_Consume := fun ch _ _ _ _ _ _ n => (Ok ch, n);
  Channel_NotifyClose := fun _ n => (tt, n);
  Channel_NotifyConfirm := fun _ n => (tt, n);
  Channel_Confirm := fun _ _ n => (None, n);
  Stream_Recv := fun _ n => (NoDelivery, n);
  Channel_Ack := fun _ _ _ n => (None, n);
  Channel_Nack := fun _ _ _ _ n => (None, n);
  Channel_Publish := fun _ _ _ _ _ _ n => (None, n);
  Channel_Close := fun _ n => (None, n);
  Confirm_Await := fun _ n => (Some ConfirmAck, n)
|}.

Definition start : World nat := mkWorld 0%nat [].

End Flaky.

(** ** General facts about the trace *)

Section TraceFacts.
Context {S : Type} `{!Amqp S}.

Lemma emit_run (ev : Event) (w : World S) :
  emit ev w = (tt, mkWorld (outside w) (trace w ++ [ev])).
Proof. reflexivity. Qed.

Lemma call_run {A} (ev : A -> Event) (op : S -> A * S) (w : World S) :
  call ev op w = ((op (outside w)).1,
                  mkWorld (op (outside w)).2 (trace w ++ [ev (op (outside w)).1])).
Proof. unfold call. destruct (op (outside w)); reflexivity. Qed.

Lemma bind_run {A B} (m : M S A) (k : A -> M S B) (w : World S) :
  (m ≫= k) w = k (m w).1 (m w).2.
Proof. unfold mbind, M_bind. destruct (m w); reflexivity. Qed.

Lemma ret_run {A} (a : A) (w : World S) : (mret a : M S A) w = (a, w).
Proof. reflexivity. Qed.

Lemma added_app {A} (m : M S A) (w : World S) (evs : list Event) :
  trace (m w).2 = trace w ++ evs -> added m w = evs.
Proof.
  intros E. unfold added. rewrite E. by rewrite drop_app_length.
Qed.

End TraceFacts.

(** Steps a computation through its binds, calls and emits. *)
Ltac run :=
  repeat first
    [ rewrite bind_run
    | rewrite emit_run
    | rewrite call_run
    | rewrite ret_run
    | progress cbn [fst snd outside trace] ].

(** Takes a membership in an explicit list apart, dropping the elements
    that differ by their constructor. *)
Ltac in_list H :=
  repeat match type of H with
  | _ ∈ _ :: _ => apply elem_of_cons in H as [H|H]; [try discriminate H|]
  | _ ∈ [] => by apply elem_of_nil in H
  end.

(** ** Configuration defaults and the dial URI *)

Section Defaults.
Context {S : Type} `{!Amqp S}.

(** The configuration after the seven blocks, field by field. *)
Lemma New_conf (c : Config) (w : World S) :
  conf (newRelay c w) =
  mkConfig
    (if decide (Addr c = "") then "localhost" else Addr c)
    (if decide (Port c = 0) then (if EnableTLS c then 5671 else 5672) else Port c)
    (if decide (Vhost c = "") then "/" else Vhost c)
    (if decide (Username c = "") then "guest" else Username c)
    (if decide (Password c = "") then "guest" else Password c)
    (EnableTLS c) (PrefetchCount c) (EnableMultiAck c)
    (DisablePublishConfirm c) (DisablePersistence c)
    (if decide (Exchange c = "") then "relay" else Exchange c)
    (match CSerializer c with None => Some GOBSerializer | Some s => Some s end).
Proof.
  destruct c as [addr port vhost user pass tls pre multi nocf nopers exch ser].
  unfold newRelay, New. run. cbn [conf].
  cbn [Addr Port Vhost Username Password Exchange CSerializer EnableTLS
       PrefetchCount EnableMultiAck DisablePublishConfirm DisablePersistence].
  unfold fillAddr; cbn [Addr].
  destruct (decide (addr = "")); unfold set_Addr;
  cbn [Addr Port Vhost Username Password Exchange CSerializer EnableTLS
       PrefetchCount EnableMultiAck DisablePublishConfirm DisablePersistence];
  unfold fillPort; cbn [Port EnableTLS];
  (destruct (decide (port = 0)); [destruct tls|]); unfold set_Port;
  cbn [Addr Port Vhost Username Password Exchange CSerializer EnableTLS
       PrefetchCount EnableMultiAck DisablePublishConfirm DisablePersistence];
  unfold fillVhost; cbn [Vhost];
  destruct (decide (vhost = "")); unfold set_Vhost;
  cbn [Addr Port Vhost Username Password Exchange CSerializer EnableTLS
       PrefetchCount EnableMultiAck DisablePublishConfirm DisablePersistence];
  unfold fillUsername; cbn [Username];
  destruct (decide (user = "")); unfold set_Username;
  cbn [Addr Port Vhost Username Password Exchange CSerializer EnableTLS
       PrefetchCount EnableMultiAck DisablePublishConfirm DisablePersistence];
  unfold fillPassword; cbn [Password];
  destruct (decide (pass = "")); unfold set_Password;
  cbn [Addr Port Vhost Username Password Exchange CSerializer EnableTLS
       PrefetchCount EnableMultiAck DisablePublishConfirm DisablePersistence];
  unfold fillExchange; cbn [Exchange];
  destruct (decide (exch = "")); unfold set_Exchange;
  cbn [Addr Port Vhost Username Password Exchange CSerializer EnableTLS
       PrefetchCount EnableMultiAck DisablePublishConfirm DisablePersistence];
  unfold fillSerializer; cbn [CSerializer];
  destruct ser; unfold set_Serializer;
  cbn [Addr Port Vhost Username Password Exchange CSerializer EnableTLS
       PrefetchCount EnableMultiAck DisablePublishConfirm DisablePersistence];
  reflexivity.
Qed.

(** C5. After New, every unset field of the configuration holds its default
    (address "localhost", vhost "/", username and password "guest", exchange
    "relay", the GOB serializer, port 5671 with TLS and 5672 without) and
    every set field keeps its value; getConn dials one URI, whose scheme is
    "amqps" exactly when the TLS flag is set and "amqp" otherwise, with the
    configured host, port, vhost and credentials. *)
Theorem New_defaults_and_dial_uri (c : Config) (w : World S) :
  let c' := conf (newRelay c w) in
  (Addr c = "" -> Addr c' = "localhost") /\
  (Vhost c = "" -> Vhost c' = "/") /\
  (Username c = "" -> Username c' = "guest") /\
  (Password c = "" -> Password c' = "guest") /\
  (Exchange c = "" -> Exchange c' = "relay") /\
  (CSerializer c = None -> CSerializer c' = Some GOBSerializer) /\
  (Port c = 0 -> EnableTLS c = true -> Port c' = 5671) /\
  (Port c = 0 -> EnableTLS c = false -> Port c' = 5672) /\
  (Addr c <> "" -> Addr c' = Addr c) /\
  (Vhost c <> "" -> Vhost c' = Vhost c) /\
  (Username c <> "" -> Username c' = Username c) /\
  (Password c <> "" -> Password c' = Password c) /\
  (Exchange c <> "" -> Exchange c' = Exchange c) /\
  (CSerializer c <> None -> CSerializer c' = CSerializer c) /\
  (Port c <> 0 -> Port c' = Port c) /\
  EnableTLS c' = EnableTLS c /\
  (forall (r : Relay) (w1 : World S),
      added (getConn r) w1 = [EvDial (dialURI (conf r)) (getConn r w1).1] /\
      (getConn r w1).1 = (Dial (dialURI (conf r)) (outside w1)).1 /\
      (Scheme (dialURI (conf r)) = "amqps" <-> EnableTLS (conf r) = true) /\
      (Scheme (dialURI (conf r)) = "amqp" <-> EnableTLS (conf r) = false) /\
      Host (dialURI (conf r)) = Addr (conf r) /\
      UPort (dialURI (conf r)) = Port (conf r) /\
      UVhost (dialURI (conf r)) = Vhost (conf r) /\
      UUsername (dialURI (conf r)) = Username (conf r) /\
      UPassword (dialURI (conf r)) = Password (conf r)).
Proof.
  assert (URI_ok : forall r : Relay,
    (Scheme (dialURI (conf r)) = "amqps" <-> EnableTLS (conf r) = true) /\
    (Scheme (dialURI (conf r)) = "amqp" <-> EnableTLS (conf r) = false) /\
    Host (dialURI (conf r)) = Addr (conf r) /\
    UPort (dialURI (conf r)) = Port (conf r) /\
    UVhost (dialURI (conf r)) = Vhost (conf r) /\
    UUsername (dialURI (conf r)) = Username (conf r) /\
    UPassword (dialURI (conf r)) = Password (conf r)).
  { intros r. unfold dialURI. destruct (EnableTLS (conf r)).
    - repeat split; try reflexivity; try discriminate.
    - repeat split; try reflexivity; try discriminate. }
  cbn zeta. rewrite New_conf.
  cbn [Addr Port Vhost Username Password Exchange CSerializer EnableTLS].
  repeat split.
  - intros E. by rewrite decide_True.
  - intros E. by rewrite decide_True.
  - intros E. by rewrite decide_True.
  - intros E. by rewrite decide_True.
  - intros E. by rewrite decide_True.
  - intros E. by rewrite E.
  - intros E T. rewrite decide_True by done. by rewrite T.
  - intros E T. rewrite decide_True by done. by rewrite T.
  - intros E. by rewrite decide_False.
  - intros E. by rewrite decide_False.
  - intros E. by rewrite decide_False.
  - intros E. by rewrite decide_False.
  - intros E. by rewrite decide_False.
  - intros E. by destruct (CSerializer c).
  - intros E. by rewrite decide_False.
  - apply added_app. unfold getConn. run. reflexivity.
  - unfold getConn. run. reflexivity.
  - apply URI_ok.
  - apply URI_ok.
  - apply URI_ok.
  - apply URI_ok.
  - apply URI_ok.
  - apply URI_ok.
  - apply URI_ok.
  - apply URI_ok.
  - apply URI_ok.
Qed.

End Defaults.

(** ** Construction and the deferred dial *)

Section Construction.
Context {S : Type} `{!Amqp S}.

Lemma New_run (c : Config) (w : World S) :
  New c w = ((newRelay c w, None),
             mkWorld (outside w) (trace w ++ [EvSetFinalizer RelayClose])).
Proof. reflexivity. Qed.

Lemma newRelay_slots (c : Config) (w : World S) (role : Role) :
  load role (newRelay c w) = None.
Proof. by destruct role. Qed.

(** A call of getChan on an empty slot whose dial fails: the dial error
    comes back as it is and the slot stays empty. *)
Lemma getChan_dial_fails (role : Role) (r : Relay) (w : World S) (e : error) :
  load role r = None ->
  (Dial (dialURI (conf r)) (outside w)).1 = Err e ->
  getChan role r w =
    ((Err e, r),
     mkWorld (Dial (dialURI (conf r)) (outside w)).2
       (trace w ++ [EvLock; EvDial (dialURI (conf r)) (Err e); EvUnlock])).
Proof.
  intros Hslot Hdial.
  unfold getChan, getChan_locked, getConn. rewrite Hslot.
  run. rewrite Hdial. run.
  by rewrite <- !app_assoc.
Qed.

(** C1. New returns a Relay and a nil error for every configuration; it does
    not touch the outside world (its only event is the finalizer
    registration), and both connection slots of the new Relay are empty.
    If the broker cannot be dialed, the first Consumer or Publisher call on
    that Relay returns exactly the dial error, having done nothing but the
    failed dial. *)
Theorem New_never_fails_dial_error_deferred (c : Config) (w : World S) :
  let r := newRelay c w in
  (New c w).1 = (r, None) /\
  outside (New c w).2 = outside w /\
  added (New c) w = [EvSetFinalizer RelayClose] /\
  pubConn r = None /\
  consConn r = None /\
  (forall (queue : string) (w1 : World S) (e : error),
      (Dial (dialURI (conf r)) (outside w1)).1 = Err e ->
      (Relay_Consumer queue r w1).1 = (Err e, r) /\
      added (Relay_Consumer queue r) w1
        = [EvLock; EvDial (dialURI (conf r)) (Err e); EvUnlock] /\
      (Relay_Publisher queue r w1).1 = (Err e, r) /\
      added (Relay_Publisher queue r) w1
        = [EvLock; EvDial (dialURI (conf r)) (Err e); EvUnlock]).
Proof.
  cbn zeta. rewrite New_run. cbn [fst snd outside].
  split; [reflexivity|]. split; [reflexivity|].
  split; [apply added_app; by rewrite New_run|].
  split; [reflexivity|]. split; [reflexivity|].
  intros queue w1 e Hdial.
  assert (HC : Relay_Consumer queue (newRelay c w) w1 =
               ((Err e, newRelay c w),
                mkWorld (Dial (dialURI (conf (newRelay c w))) (outside w1)).2
                  (trace w1 ++ [EvLock; EvDial (dialURI (conf (newRelay c w))) (Err e);
                                EvUnlock]))).
  { unfold Relay_Consumer. rewrite bind_run.
    rewrite (getChan_dial_fails ConsRole _ _ e) by (done || apply newRelay_slots).
    reflexivity. }
  assert (HP : Relay_Publisher queue (newRelay c w) w1 =
               ((Err e, newRelay c w),
                mkWorld (Dial (dialURI (conf (newRelay c w))) (outside w1)).2
                  (trace w1 ++ [EvLock; EvDial (dialURI (conf (newRelay c w))) (Err e);
                                EvUnlock]))).
  { unfold Relay_Publisher. rewrite bind_run.
    rewrite (getChan_dial_fails PubRole _ _ e) by (done || apply newRelay_slots).
    reflexivity. }
  repeat split.
  - by rewrite HC.
  - apply added_app. by rewrite HC.
  - by rewrite HP.
  - apply added_app. by rewrite HP.
Qed.

End Construction.

(** ** Relay.Close *)

Section CloseRelay.
Context {S : Type} `{!Amqp S}.

Lemma closeSlot_run (role : Role) (errors : list error) (r : Relay) (w : World S) :
  closeSlot role errors r w =
    ((errors ++ match (slotClose (load role r) (outside w)).1 with
                | Some e => [e]
                | None => []
                end,
      store role None r),
     mkWorld (slotClose (load role r) (outside w)).2
       (trace w ++ slotEvents role (load role r)
                     (slotClose (load role r) (outside w)).1)).
Proof.
  unfold closeSlot, slotClose, slotEvents.
  destruct (load role r) as [c|] eqn:Hslot.
  - unfold setConn. run.
    destruct (Connection_Close c (outside w)) as [[e|] s1]; cbn [fst snd];
      rewrite <- ?app_assoc, ?app_nil_r; reflexivity.
  - run. rewrite !app_nil_r. f_equal.
    + f_equal. destruct role, r; cbn in *; by subst.
    + by destruct w.
Qed.

(** C2. Close closes the publish and the consume connection when present,
    one ConnClose event each and in this order, under the lock; both slots
    are empty afterwards.  It returns nil when no close failed, the error
    itself when one failed, and the combined "Failed to Close!" error when
    both failed.  On a Relay whose slots are empty, which is the state every
    Close leaves, Close touches nothing outside and returns nil. *)
Theorem Relay_Close_closes_once_and_aggregates (r : Relay) (w : World S) :
  let p := slotClose (pubConn r) (outside w) in
  let c := slotClose (consConn r) p.2 in
  let r' := (Relay_Close r w).1.2 in
  added (Relay_Close r) w
    = [EvLock] ++ slotEvents PubRole (pubConn r) p.1
               ++ slotEvents ConsRole (consConn r) c.1 ++ [EvUnlock] /\
  outside (Relay_Close r w).2 = c.2 /\
  pubConn r' = None /\
  consConn r' = None /\
  conf r' = conf r /\
  (Relay_Close r w).1.1 =
    match p.1, c.1 with
    | None, None => None
    | Some e, None => Some e
    | None, Some e => Some e
    | Some e0, Some e1 =>
        Some (Errorf ("Failed to Close! Got " +:+ error_string e0
                        +:+ " and " +:+ error_string e1))
    end /\
  (forall w2 : World S,
      Relay_Close r' w2 =
        ((None, r'), mkWorld (outside w2) (trace w2 ++ [EvLock; EvUnlock]))).
Proof.
  cbn zeta.
  assert (Run : Relay_Close r w =
    ((closeResult
        (match (slotClose (pubConn r) (outside w)).1 with Some e => [e] | None => [] end ++
         match (slotClose (consConn r) (slotClose (pubConn r) (outside w)).2).1 with
         | Some e => [e] | None => [] end),
      mkRelay (conf r) None None),
     mkWorld (slotClose (consConn r) (slotClose (pubConn r) (outside w)).2).2
       (trace w ++ [EvLock]
          ++ slotEvents PubRole (pubConn r) (slotClose (pubConn r) (outside w)).1
          ++ slotEvents ConsRole (consConn r)
               (slotClose (consConn r) (slotClose (pubConn r) (outside w)).2).1
          ++ [EvUnlock]))).
  { unfold Relay_Close. run. rewrite closeSlot_run. cbn [fst snd].
    run. rewrite closeSlot_run. cbn [fst snd outside trace load store pubConn consConn conf].
    run. by rewrite <- !app_assoc. }
  rewrite Run. cbn [fst snd outside pubConn consConn conf].
  split; [apply added_app; by rewrite Run|].
  split; [reflexivity|]. split; [reflexivity|]. split; [reflexivity|].
  split; [reflexivity|].
  split.
  - destruct (slotClose (pubConn r) (outside w)).1,
      (slotClose (consConn r) (slotClose (pubConn r) (outside w)).2).1; reflexivity.
  - intros w2. unfold Relay_Close. run. rewrite closeSlot_run. cbn [fst snd].
    run. rewrite closeSlot_run.
    cbn [fst snd outside trace load store pubConn consConn conf slotClose slotEvents].
    run. by rewrite !app_nil_r, <- !app_assoc.
Qed.

End CloseRelay.

(** ** The connection watcher *)

Section Watcher.
Context {S : Type} `{!Amqp S}.

(** The loop only logs; it is left exactly when one of the receives stops
    it. *)
Lemma watchLoop_run (rx : list Recv) (w : World S) :
  exists logs : list Event,
    Forall isLog logs /\
    watchLoop rx w = (existsb stops rx, mkWorld (outside w) (trace w ++ logs)).
Proof.
  revert w. induction rx as [|x rest IH]; intros w.
  - exists []. split; [constructor|]. cbn. rewrite app_nil_r. by destruct w.
  - destruct x as [e|].
    + cbn [watchLoop existsb stops]. run.
      destruct (Recover e) eqn:Hrec; cbn [negb orb].
      * destruct (IH (mkWorld (outside w) (trace w ++ [EvLogErr e]))) as (logs & Hlogs & Hrun).
        exists (EvLogErr e :: logs). split.
        -- constructor; [by exists e | done].
        -- rewrite Hrun. cbn [outside trace]. by rewrite <- app_assoc.
      * exists [EvLogErr e]. split; [|reflexivity].
        constructor; [by exists e | constructor].
    + exists []. split; [constructor|]. cbn. rewrite app_nil_r. by destruct w.
Qed.

(** C3. A watcher that has received [rx] on the error channel of its
    connection has left its loop exactly when one of the receives was a
    non-recoverable error or found the channel closed.  In that case it has
    emptied the slot of its role, between taking and releasing the Relay
    lock, and has done nothing else but log.  Otherwise (every receive so far
    was a recoverable error) it is still waiting, the Relay is unchanged and
    its events are log lines only. *)
Theorem watchConn_clears_slot_exactly_on_stop
    (role : Role) (rx : list Recv) (r : Relay) (w : World S) :
  let left_loop := (watchConn role rx r w).1.1 in
  let r' := (watchConn role rx r w).1.2 in
  (left_loop = true <->
     Exists (fun x => match x with
                      | Got e => Recover e = false
                      | Closed => True
                      end) rx) /\
  (left_loop = true ->
     r' = store role None r /\
     exists logs, Forall isLog logs /\
       added (watchConn role rx r) w = logs ++ [EvLock; EvStore role None; EvUnlock]) /\
  (left_loop = false ->
     r' = r /\ Forall isLog (added (watchConn role rx r) w)) /\
  (Forall (fun x => exists e, x = Got e /\ Recover e = true) rx ->
     left_loop = false /\ r' = r) /\
  outside (watchConn role rx r w).2 = outside w.
Proof.
  cbn zeta.
  destruct (watchLoop_run rx w) as (logs & Hlogs & Hrun).
  assert (Hstop : existsb stops rx = true <->
            Exists (fun x => match x with Got e => Recover e = false | Closed => True end) rx).
  { rewrite existsb_exists, Exists_exists. split.
    - intros (x & Hin & Hx). exists x. apply list_elem_of_In in Hin. split; [done|].
      destruct x as [e|]; [|done]. cbn in Hx. by destruct (Recover e).
    - intros (x & Hin & Hx). exists x. apply list_elem_of_In in Hin. split; [done|].
      destruct x as [e|]; [|done]. cbn. by rewrite Hx. }
  assert (Run : watchConn role rx r w =
            if existsb stops rx
            then ((true, store role None r),
                  mkWorld (outside w)
                    (trace w ++ logs ++ [EvLock; EvStore role None; EvUnlock]))
            else ((false, r), mkWorld (outside w) (trace w ++ logs))).
  { unfold watchConn. rewrite bind_run, Hrun. cbn [fst snd].
    destruct (existsb stops rx); [|reflexivity].
    unfold setConn. run. by rewrite <- !app_assoc. }
  rewrite Run.
  destruct (existsb stops rx) eqn:Hex; cbn [fst snd outside].
  - split; [done|].
    split.
    { intros _. split; [reflexivity|]. exists logs. split; [done|].
      apply added_app. by rewrite Run. }
    split; [discriminate|]. split; [|reflexivity].
    intros Hall. exfalso.
    pose proof (proj1 Hstop eq_refl) as HE.
    apply Exists_exists in HE as (x & Hin & Hx).
    rewrite Forall_forall in Hall. destruct (Hall x Hin) as (e & -> & Hrec).
    congruence.
  - split.
    { split; [discriminate|]. intros HE. apply Hstop in HE. discriminate. }
    split; [discriminate|].
    split.
    { intros _. split; [reflexivity|].
      replace (added (watchConn role rx r) w) with logs; [done|].
      symmetry. apply added_app. by rewrite Run. }
    done.
Qed.

End Watcher.

(** ** getChan *)

Section GetChan.
Context {S : Type} `{!Amqp S}.

Lemma conf_store (role : Role) (v : option Conn) (r : Relay) :
  conf (store role v r) = conf r.
Proof. by destruct role. Qed.

Lemma load_store (role : Role) (v : option Conn) (r : Relay) :
  load role (store role v r) = v.
Proof. by destruct role. Qed.

Lemma getChan_run_trace (role : Role) (r : Relay) (w : World S) :
  exists evs : list Event,
    trace (getChan role r w).2 = trace w ++ evs /\
    getChanRun role r (getChan role r w).1.1 (getChan role r w).1.2 evs.
Proof.
  unfold getChan, getChan_locked, getConn, getChan_channel, setConn.
  destruct (load role r) as [c|] eqn:Hslot.
  - run. destruct (Connection_Channel c (outside w)) as [[ch|e] s1] eqn:HC; run;
      rewrite <- !app_assoc; eexists; (split; [reflexivity|]); by econstructor.
  - run. destruct (Dial (dialURI (conf r)) (outside w)) as [[nc|e] s1] eqn:HD; run.
    + destruct (Connection_NotifyClose nc s1) as [[] s2] eqn:HN; run.
      destruct (Connection_Channel nc s2) as [[ch|e] s3] eqn:HC; run.
      * rewrite conf_store.
        destruct (Channel_ExchangeDeclare ch (Exchange (conf r)) "direct"
                    true false false false s3) as [[e|] s4] eqn:HX; run;
          rewrite <- !app_assoc; eexists; (split; [reflexivity|]).
        -- by apply (Run_fresh_no_exchange role r nc ch e).
        -- by apply (Run_fresh role r nc ch).
      * rewrite <- !app_assoc. eexists. split; [reflexivity|].
        by apply (Run_fresh_no_channel role r nc e).
    + rewrite <- !app_assoc. eexists. split; [reflexivity|]. by apply Run_no_dial.
Qed.

Lemma getChan_trace (role : Role) (r : Relay) (w : World S) :
  trace (getChan role r w).2 = trace w ++ added (getChan role r) w.
Proof.
  destruct (getChan_run_trace role r w) as (evs & Htr & _).
  by rewrite (added_app _ _ _ Htr).
Qed.

Lemma getChan_run (role : Role) (r : Relay) (w : World S) :
  getChanRun role r (getChan role r w).1.1 (getChan role r w).1.2
    (added (getChan role r) w).
Proof.
  destruct (getChan_run_trace role r w) as (evs & Htr & Run).
  by rewrite (added_app _ _ _ Htr).
Qed.

(** C4. Whenever a call of getChan opens a channel [ch], it declares the
    exchange on [ch] if and only if it dialed the connection in that same
    call.  Every declaration getChan makes is of the configured exchange
    name, with type "direct", durable, not auto-deleted (and neither internal
    nor no-wait), on the channel just opened on the connection just dialed.
    When the declaration fails with a broker error, getChan returns the error
    "Failed to declare exchange '<name>'! Got: <broker error>". *)
Theorem getChan_declares_exchange_iff_fresh (role : Role) (r : Relay) (w : World S) :
  let evs := added (getChan role r) w in
  (forall (c : Conn) (ch : Chan),
      EvChannel c (Ok ch) ∈ evs ->
      ((exists res, EvExchangeDeclare ch (Exchange (conf r)) "direct"
                      true false false false res ∈ evs)
       <-> (exists u nc, EvDial u (Ok nc) ∈ evs))) /\
  (forall ch name kind durable autoDelete internal noWait res,
      EvExchangeDeclare ch name kind durable autoDelete internal noWait res ∈ evs ->
      name = Exchange (conf r) /\ kind = "direct" /\
      durable = true /\ autoDelete = false /\ internal = false /\ noWait = false /\
      (exists nc, EvDial (dialURI (conf r)) (Ok nc) ∈ evs /\
                  EvChannel nc (Ok ch) ∈ evs) /\
      (getChan role r w).1.1 =
        match res with
        | Some err =>
            Err (Errorf ("Failed to declare exchange '" +:+ Exchange (conf r)
                           +:+ "'! Got: " +:+ error_string err))
        | None => Ok ch
        end).
Proof.
  cbn zeta. pose proof (getChan_run role r w) as Run.
  destruct Run as [c0 ch0 _|c0 e _|e _|nc e _|nc ch0 _|nc ch0 e _];
    unfold dialEvents; cbn [app].
  all: split; [intros c ch Hch|intros ch name kind d a i n res Hdecl].
  all: try (in_list Hdecl; fail).
  all: try (in_list Hch; fail).
  - split; intros (x & Hx); [in_list Hx|destruct Hx as (nc & Hx); in_list Hx].
  - in_list Hch. injection Hch as -> ->.
    split; [intros _; exists (dialURI (conf r)), nc; set_solver|].
    intros _. exists None. set_solver.
  - in_list Hdecl. injection Hdecl as -> -> -> -> -> -> -> ->.
    repeat split; try done. exists nc. set_solver.
  - in_list Hch. injection Hch as -> ->.
    split; [intros _; exists (dialURI (conf r)), nc; set_solver|].
    intros _. exists (Some e). set_solver.
  - in_list Hdecl. injection Hdecl as -> -> -> -> -> -> -> ->.
    repeat split; try done. exists nc. set_solver.
Qed.

(** On a slot that holds a connection, getChan only opens a channel on it. *)
Lemma getChan_cached (role : Role) (r : Relay) (w : World S) (c : Conn) :
  load role r = Some c ->
  (getChan role r w).1.2 = r /\
  exists res, added (getChan role r) w = [EvLock; EvChannel c res; EvUnlock] /\
              (getChan role r w).1.1 = res.
Proof.
  intros Hslot. pose proof (getChan_run role r w) as Run.
  destruct Run as [c0 ch0 H0|c0 e H0|e H0|nc e H0|nc ch0 H0|nc ch0 e H0];
    try congruence.
  - split; [done|]. exists (Ok ch0). rewrite H0 in Hslot. by injection Hslot as ->.
  - split; [done|]. exists (Err e). rewrite H0 in Hslot. by injection Hslot as ->.
Qed.

Lemma getChanTimes_cached (role : Role) (c : Conn) (n : nat) (r : Relay) (w : World S) :
  load role r = Some c ->
  (getChanTimes role n r w).1.2 = r /\
  exists evs, trace (getChanTimes role n r w).2 = trace w ++ evs /\
              Forall (reuses c) evs.
Proof.
  intros Hslot. revert w. induction n as [|n IH]; intros w.
  - split; [done|]. exists []. split; [by rewrite app_nil_r|constructor].
  - cbn [getChanTimes]. rewrite bind_run.
    destruct (getChan_cached role r w c Hslot) as (Hr & res & Hev & Hres).
    pose proof (getChan_trace role r w) as Htr. rewrite Hev in Htr.
    destruct (getChan role r w) as [[res0 r0] w0]. cbn [fst snd] in *. subst r0.
    rewrite bind_run.
    destruct (IH w0) as (Hr' & evs & Htr' & Hall).
    destruct (getChanTimes role n r w0) as [[rest r1] w1]. cbn [fst snd] in *.
    split; [done|].
    exists ([EvLock; EvChannel c res; EvUnlock] ++ evs). split.
    + rewrite ret_run. cbn [snd]. rewrite Htr', Htr. by rewrite <- app_assoc.
    + apply Forall_app. split; [|done].
      apply Forall_cons; split; [by left|].
      apply Forall_cons; split; [right; right; by exists res|].
      apply Forall_cons; split; [right; by left|constructor].
Qed.

(** C10. When a call of getChan dials a new connection [nc] and the exchange
    declaration on it then fails, the call returns the declaration error
    and [nc] stays in the slot of that role.  From then on, as long as it
    stays there, every call of getChan on that role, in whatever state the
    outside world is, leaves [nc] in the slot and consists of taking the
    lock, opening a channel on [nc] and releasing the lock: it neither dials
    nor declares the exchange.  The same holds of any number of such calls
    in a row. *)
Theorem getChan_failed_declare_keeps_connection
    (role : Role) (r : Relay) (w : World S) (nc : Conn) (ch : Chan) (e : error) :
  EvDial (dialURI (conf r)) (Ok nc) ∈ added (getChan role r) w ->
  EvExchangeDeclare ch (Exchange (conf r)) "direct" true false false false (Some e)
    ∈ added (getChan role r) w ->
  let r1 := (getChan role r w).1.2 in
  (getChan role r w).1.1 = Err (declareError r e) /\
  load role r1 = Some nc /\
  (forall (r2 : Relay) (w2 : World S),
      load role r2 = Some nc ->
      (getChan role r2 w2).1.2 = r2 /\
      exists res, added (getChan role r2) w2 = [EvLock; EvChannel nc res; EvUnlock]) /\
  (forall (n : nat) (w2 : World S),
      (getChanTimes role n r1 w2).1.2 = r1 /\
      Forall (reuses nc) (added (getChanTimes role n r1) w2)).
Proof.
  intros Hdial Hdecl. cbn zeta.
  pose proof (getChan_run role r w) as Run.
  assert (Hres : (getChan role r w).1.1 = Err (declareError r e) /\
                 (getChan role r w).1.2 = store role (Some nc) r).
  { destruct Run as [c0 ch0 _|c0 e0 _|e0 _|nc0 e0 _|nc0 ch0 _|nc0 ch0 e0 _];
      unfold dialEvents in *; cbn [app] in *.
    all: try (in_list Hdecl; fail).
    in_list Hdecl. in_list Hdial.
    injection Hdecl as -> ->. by injection Hdial as ->. }
  destruct Hres as [Hres Hrel]. rewrite Hres, Hrel.
  split; [done|]. split; [apply load_store|].
  split.
  - intros r2 w2 Hslot.
    destruct (getChan_cached role r2 w2 nc Hslot) as (Hr & res & Hev & _).
    split; [done|]. by exists res.
  - intros n w2.
    destruct (getChanTimes_cached role nc n (store role (Some nc) r) w2
                (load_store _ _ _)) as (Hr & evs & Htr & Hall).
    split; [done|]. by rewrite (added_app _ _ _ Htr).
Qed.

End GetChan.

(** ** Finalizers *)

Section Finalizers.
Context {S : Type} `{!Amqp S}.

Lemma getChanRun_noFinalizer role r res r' evs :
  getChanRun role r res r' evs -> noFinalizer evs.
Proof.
  intros Run. destruct Run; unfold dialEvents, noFinalizer; cbn [app];
    repeat (apply Forall_cons; split; [intros ?; discriminate|]); constructor.
Qed.

End Finalizers.

(** Closes a goal [noFinalizer (evs ++ [ev1; ...])], [evs] known to have
    none. *)
Ltac no_finalizer :=
  unfold noFinalizer in *;
  repeat (apply Forall_app; split); try assumption;
  repeat (apply Forall_cons; split; [intros ?; discriminate|]);
  try (by constructor).

Section FinalizersOfHandles.
Context {S : Type} `{!Amqp S}.

(** Consumer: the events of a call end with the registration of the
    finalizer when a Consumer is returned, and contain none otherwise. *)
Lemma Relay_Consumer_finalizer (queue : string) (r : Relay) (w : World S) :
  exists evs : list Event,
    trace (Relay_Consumer queue r w).2 = trace w ++ evs /\
    match (Relay_Consumer queue r w).1.1 with
    | Ok handle =>
        exists ch pre, c_channel handle = Some ch /\
                       evs = pre ++ [EvSetFinalizer (ConsumerClose ch)] /\
                       noFinalizer pre
    | Err _ => noFinalizer evs
    end.
Proof.
  unfold Relay_Consumer. rewrite bind_run.
  destruct (getChan_run_trace ConsRole r w) as (evs & Htr & Run).
  apply getChanRun_noFinalizer in Run.
  destruct (getChan ConsRole r w) as [[[ch|e] r1] w1]; cbn [fst snd] in *.
  2:{ exists evs. by rewrite ret_run. }
  unfold declareQueue. run.
  destruct (Channel_QueueDeclare ch (queueName queue) true false false false (outside w1))
    as [[e|] s1]; run.
  { eexists. rewrite Htr, <- !app_assoc. split; [reflexivity|]. no_finalizer. }
  destruct (Channel_QueueBind ch (queueName queue) (queueName queue)
              (Exchange (conf r1)) false s1) as [[e|] s2]; run.
  { eexists. rewrite Htr, <- !app_assoc. split; [reflexivity|]. no_finalizer. }
  destruct (decide (0 < PrefetchCount (conf r1))) as [Hpre|Hpre]; run.
  - destruct (Channel_Qos ch (PrefetchCount (conf r1)) 0 false s2) as [[e|] s3]; run.
    { eexists. rewrite Htr, <- !app_assoc. split; [reflexivity|]. no_finalizer. }
    destruct (channelName s3) as [[consName|e] s4]; run.
    2:{ eexists. rewrite Htr, <- !app_assoc. split; [reflexivity|]. no_finalizer. }
    destruct (Channel_Consume ch (queueName queue) consName false false false false s4)
      as [[readCh|e] s5]; run.
    2:{ eexists. rewrite Htr, <- !app_assoc. split; [reflexivity|]. no_finalizer. }
    eexists. rewrite Htr, <- !app_assoc. split; [reflexivity|].
    exists ch. eexists. split; [reflexivity|].
    split; [by rewrite !app_assoc|]. no_finalizer.
  - destruct (channelName s2) as [[consName|e] s4]; run.
    2:{ eexists. rewrite Htr, <- !app_assoc. split; [reflexivity|]. no_finalizer. }
    destruct (Channel_Consume ch (queueName queue) consName false false false false s4)
      as [[readCh|e] s5]; run.
    2:{ eexists. rewrite Htr, <- !app_assoc. split; [reflexivity|]. no_finalizer. }
    eexists. rewrite Htr, <- !app_assoc. split; [reflexivity|].
    exists ch. eexists. split; [reflexivity|].
    split; [by rewrite !app_assoc|]. no_finalizer.
Qed.

Lemma Relay_Publisher_finalizer (queue : string) (r : Relay) (w : World S) :
  exists evs : list Event,
    trace (Relay_Publisher queue r w).2 = trace w ++ evs /\
    match (Relay_Publisher queue r w).1.1 with
    | Ok handle =>
        exists ch pre, p_channel handle = Some ch /\
                       evs = pre ++ [EvSetFinalizer (PublisherClose ch)] /\
                       noFinalizer pre
    | Err _ => noFinalizer evs
    end.
Proof.
  unfold Relay_Publisher. rewrite bind_run.
  destruct (getChan_run_trace PubRole r w) as (evs & Htr & Run).
  apply getChanRun_noFinalizer in Run.
  destruct (getChan PubRole r w) as [[[ch|e] r1] w1]; cbn [fst snd] in *.
  2:{ exists evs. by rewrite ret_run. }
  unfold declareQueue. run.
  destruct (Channel_QueueDeclare ch (queueName queue) true false false false (outside w1))
    as [[e|] s1]; run.
  { eexists. rewrite Htr, <- !app_assoc. split; [reflexivity|]. no_finalizer. }
  destruct (Channel_QueueBind ch (queueName queue) (queueName queue)
              (Exchange (conf r1)) false s1) as [[e|] s2]; run.
  { eexists. rewrite Htr, <- !app_assoc. split; [reflexivity|]. no_finalizer. }
  destruct (DisablePublishConfirm (conf r1)); cbn [negb]; run.
  - eexists. rewrite Htr, <- !app_assoc. split; [reflexivity|].
    exists ch. eexists. split; [reflexivity|].
    split; [by rewrite !app_assoc|]. no_finalizer.
  - destruct (Channel_NotifyClose ch s2) as [[] s3]; run.
    destruct (Channel_NotifyConfirm ch s3) as [[] s4]; run.
    destruct (Channel_Confirm ch false s4) as [[e|] s5]; run.
    { eexists. rewrite Htr, <- !app_assoc. split; [reflexivity|]. no_finalizer. }
    eexists. rewrite Htr, <- !app_assoc. split; [reflexivity|].
    exists ch. eexists. split; [reflexivity|].
    split; [by rewrite !app_assoc|]. no_finalizer.
Qed.

(** C9, as the code has it. New registers the Close method of the Relay as
    its finalizer, for every configuration.  Every call of Consumer or
    Publisher that returns a handle registers the Close method of that handle
    as its finalizer, as the last thing it does and only once; a call that
    returns an error registers none. *)
Theorem constructors_register_finalizers (c : Config) (queue : string)
    (r : Relay) (w : World S) :
  added (New c) w = [EvSetFinalizer RelayClose] /\
  match (Relay_Consumer queue r w).1.1 with
  | Ok handle =>
      exists ch pre, c_channel handle = Some ch /\
        added (Relay_Consumer queue r) w = pre ++ [EvSetFinalizer (ConsumerClose ch)] /\
        noFinalizer pre
  | Err _ => noFinalizer (added (Relay_Consumer queue r) w)
  end /\
  match (Relay_Publisher queue r w).1.1 with
  | Ok handle =>
      exists ch pre, p_channel handle = Some ch /\
        added (Relay_Publisher queue r) w = pre ++ [EvSetFinalizer (PublisherClose ch)] /\
        noFinalizer pre
  | Err _ => noFinalizer (added (Relay_Publisher queue r) w)
  end.
Proof.
  split; [apply added_app; by rewrite New_run|].
  split.
  - destruct (Relay_Consumer_finalizer queue r w) as (evs & Htr & Hev).
    rewrite (added_app _ _ _ Htr). exact Hev.
  - destruct (Relay_Publisher_finalizer queue r w) as (evs & Htr & Hev).
    rewrite (added_app _ _ _ Htr). exact Hev.
Qed.

End FinalizersOfHandles.

(** ** The Consumer state machine and the closed handles *)

Section HandleFacts.
Context {S : Type} `{!Amqp S}.

(** A Consume call that takes a delivery leaves the Consumer holding it. *)
Lemma Consumer_Consume_delivered (c : Consumer) (out : string) (w : World S)
    (tag : Z) (body : string) :
  EvRecv (c_deliverCh c) (Delivered tag body) ∈ added (Consumer_Consume c out) w ->
  exists derr out1,
    (Consumer_Consume c out w).1 = Returns (derr, out1, withPending tag c) /\
    (derr, out1) = Decode (confSerializer (c_conf c)) body out /\
    holdsUnacked (withPending tag c).
Proof.
  unfold added, Consumer_Consume.
  destruct (c_channel c) as [ch|] eqn:Hch.
  2:{ rewrite ret_run. cbn [snd]. rewrite drop_all. intros H. by apply elem_of_nil in H. }
  destruct (c_needAck c && negb (EnableMultiAck (c_conf c))).
  { rewrite ret_run. cbn [snd]. rewrite drop_all. intros H. by apply elem_of_nil in H. }
  run. destruct (Stream_Recv (c_deliverCh c) (outside w)) as [[tag' body'| |] s1]; run.
  - destruct (Decode (confSerializer (c_conf c)) body' out) as [derr out1] eqn:HD.
    run. rewrite drop_app_length. intros H. in_list H. injection H as <- <-.
    exists derr, out1. rewrite HD. repeat split; try done.
    cbn. by rewrite Hch.
  - rewrite drop_app_length. intros H. in_list H.
  - rewrite drop_app_length. intros H. in_list H.
Qed.

(** C6. In single-ack mode, Consume on a Consumer that holds an
    unacknowledged delivery returns the ack-required error at once: nothing
    is received from the stream (the world, trace included, is as before),
    the caller's variable keeps the value the earlier Consume put there, and
    the Consumer is unchanged.  This is the state every Consume call that
    took a delivery leaves behind. *)
Theorem Consume_twice_needs_ack (c : Consumer) (out : string) (w : World S) :
  EnableMultiAck (c_conf c) = false ->
  (holdsUnacked c ->
     Consumer_Consume c out w =
       (Returns (Some (Errorf "Ack required before consume!"), out, c), w)) /\
  (forall tag body,
     EvRecv (c_deliverCh c) (Delivered tag body) ∈ added (Consumer_Consume c out) w ->
     exists derr out1 c1,
       (Consumer_Consume c out w).1 = Returns (derr, out1, c1) /\
       forall w1 : World S,
         Consumer_Consume c1 out1 w1 =
           (Returns (Some (Errorf "Ack required before consume!"), out1, c1), w1)).
Proof.
  intros Hsingle.
  assert (Step : forall c' out' (w' : World S),
            EnableMultiAck (c_conf c') = false -> holdsUnacked c' ->
            Consumer_Consume c' out' w' = (Returns (Some AckRequired, out', c'), w')).
  { intros c' out' w' Hs [Hopen Hneed]. unfold Consumer_Consume.
    destruct (c_channel c') as [ch|]; [|done].
    by rewrite Hneed, Hs. }
  split.
  - intros Hheld. by apply Step.
  - intros tag body Hrecv.
    destruct (Consumer_Consume_delivered c out w tag body Hrecv)
      as (derr & out1 & Hret & _ & Hheld).
    exists derr, out1, (withPending tag c). split; [done|].
    intros w1. by apply Step.
Qed.

(** C7. After Close, a Consumer answers Consume, Ack and Nack with the
    ChannelClosed sentinel itself, and a Publisher answers Publish with it;
    these calls change neither the handle nor the world, so the same holds of
    every later call.  The sentinel is not the error fmt.Errorf would make of
    the same text. *)
Theorem closed_handles_return_ChannelClosed
    (c : Consumer) (p : Publisher) (w : World S) :
  let c' := (Consumer_Close c w).1.2 in
  let p' := (Publisher_Close p w).1.2 in
  c_channel c' = None /\
  p_channel p' = None /\
  (forall (out : string) (w1 : World S),
      Consumer_Consume c' out w1 = (Returns (Some ChannelClosed, out, c'), w1)) /\
  (forall w1 : World S, Consumer_Ack c' w1 = ((Some ChannelClosed, c'), w1)) /\
  (forall w1 : World S, Consumer_Nack c' w1 = ((Some ChannelClosed, c'), w1)) /\
  (forall (value : string) (w1 : World S),
      Publisher_Publish p' value w1 = (Returns (Some ChannelClosed), w1)) /\
  ChannelClosed <> Errorf (error_string ChannelClosed).
Proof.
  cbn zeta.
  assert (Hc : c_channel (Consumer_Close c w).1.2 = None).
  { unfold Consumer_Close. destruct (c_channel c) as [ch|] eqn:Hch.
    - run. reflexivity.
    - by rewrite ret_run. }
  assert (Hp : p_channel (Publisher_Close p w).1.2 = None).
  { unfold Publisher_Close. destruct (p_channel p) as [ch|] eqn:Hch.
    - run. reflexivity.
    - by rewrite ret_run. }
  repeat split; try done.
  - intros out w1. unfold Consumer_Consume. by rewrite Hc.
  - intros w1. unfold Consumer_Ack. by rewrite Hc.
  - intros w1. unfold Consumer_Nack. by rewrite Hc.
  - intros value w1. unfold Publisher_Publish. by rewrite Hp.
Qed.


End HandleFacts.

(** ** Requeue on close, against the reference broker *)

Section Requeue.
Import Mem.





















End Requeue.


(** ** Runs against the reference broker *)

Section DemoRuns.
Import Demo.

Example New_plain : (New plain Mem.start).1 = (relay0, None).
Proof. vm_compute. reflexivity. Qed.

Example setup_handles :
  (Relay_Publisher "test" relay0 (New plain Mem.start).2).1 = (Ok pub1, relayP) /\
  (Relay_Consumer "test" relayP
     (Relay_Publisher "test" relay0 (New plain Mem.start).2).2).1 = (Ok cons1, relayPC).
Proof. split; vm_compute; reflexivity. Qed.

Example round_trip :
  ((Publisher_Publish pub1 "hello";; Consumer_Consume cons1 "") ready_world).1
  = Returns (None, "hello", held).
Proof. vm_compute. reflexivity. Qed.

Example close_both_fail :
  (Relay_Close relayPC gone).1 =
    (Some (Errorf "Failed to Close! Got channel/connection is not open and channel/connection is not open"),
     relay0).
Proof. vm_compute. reflexivity. Qed.

Example close_twice :
  (Relay_Close relayPC held_world).1 = (None, relay0) /\
  (Relay_Close relay0 (Relay_Close relayPC held_world).2).1 = (None, relay0).
Proof. split; vm_compute; reflexivity. Qed.

End DemoRuns.

(** ** The statements at work on the reference broker *)

(** Decides a closed membership by evaluation. *)
Ltac by_eval := apply (bool_decide_unpack _); vm_compute; exact I.

Lemma New_never_fails_witness :
  (New Demo.nohost Mem.start).1.2 = None /\
  (Relay_Consumer "test" (newRelay Demo.nohost Mem.start)
     (New Demo.nohost Mem.start).2).1.1 = Err Mem.ErrRefused /\
  (Relay_Publisher "test" (newRelay Demo.nohost Mem.start)
     (New Demo.nohost Mem.start).2).1.1 = Err Mem.ErrRefused.
Proof.
  pose proof (New_never_fails_dial_error_deferred Demo.nohost Mem.start) as H.
  cbn zeta in H. destruct H as (H1 & _ & _ & _ & _ & H).
  destruct (H "test" (New Demo.nohost Mem.start).2 Mem.ErrRefused) as (HC & _ & HP & _).
  { vm_compute. reflexivity. }
  split; [by rewrite H1|]. split; [by rewrite HC | by rewrite HP].
Defined.

Lemma watchConn_witness :
  (watchConn PubRole [Got Demo.soft; Got Demo.hard] Demo.relayPC Mem.start).1.2
    = store PubRole None Demo.relayPC /\
  (watchConn PubRole [Got Demo.soft] Demo.relayPC Mem.start).1
    = (false, Demo.relayPC).
Proof.
  split.
  - destruct (watchConn_clears_slot_exactly_on_stop PubRole
                [Got Demo.soft; Got Demo.hard] Demo.relayPC Mem.start)
      as (Hiff & Hstop & _).
    apply Hstop. apply Hiff. apply Exists_cons. right. apply Exists_cons. left.
    reflexivity.
  - destruct (watchConn_clears_slot_exactly_on_stop PubRole [Got Demo.soft]
                Demo.relayPC Mem.start) as (_ & _ & _ & Hsoft & _).
    destruct Hsoft as [Hl Hr].
    + apply Forall_cons. split; [|constructor]. exists Demo.soft. split; reflexivity.
    + by apply injective_projections.
Defined.

Lemma getChan_declares_witness :
  exists res,
    EvExchangeDeclare 3%nat "relay" "direct" true false false false res
      ∈ added (getChan ConsRole Demo.relayP)
          (Relay_Publisher "test" Demo.relay0 (New Demo.plain Mem.start).2).2.
Proof.
  destruct (getChan_declares_exchange_iff_fresh ConsRole Demo.relayP
              (Relay_Publisher "test" Demo.relay0 (New Demo.plain Mem.start).2).2)
    as [Hopen _].
  apply (Hopen 2%nat 3%nat).
  - by_eval.
  - exists (dialURI Demo.filled), 2%nat. by_eval.
Defined.

Lemma New_defaults_witness :
  Addr (conf (newRelay Demo.tls Mem.start)) = "localhost" /\
  Port (conf (newRelay Demo.tls Mem.start)) = 5671 /\
  Exchange (conf (newRelay Demo.tls Mem.start)) = "relay" /\
  CSerializer (conf (newRelay Demo.tls Mem.start)) = Some GOBSerializer /\
  Scheme (dialURI (conf (newRelay Demo.tls Mem.start))) = "amqps".
Proof.
  destruct (New_defaults_and_dial_uri Demo.tls Mem.start)
    as (Ha & _ & _ & _ & He & Hs & Hp & _ & _ & _ & _ & _ & _ & _ & _ & _ & Huri).
  cbn zeta.
  split; [by apply Ha|]. split; [by apply Hp|]. split; [by apply He|].
  split; [by apply Hs|].
  destruct (Huri (newRelay Demo.tls Mem.start) Mem.start) as (_ & _ & Hscheme & _).
  apply Hscheme. vm_compute. reflexivity.
Defined.

Lemma Consume_twice_witness :
  Consumer_Consume Demo.held "hello" Demo.held_world =
    (Returns (Some (Errorf "Ack required before consume!"), "hello", Demo.held),
     Demo.held_world).
Proof.
  destruct (Consume_twice_needs_ack Demo.held "hello" Demo.held_world) as [Hheld _].
  - reflexivity.
  - apply Hheld. split; [discriminate | reflexivity].
Defined.


Lemma getChan_failed_declare_witness :
  (getChan PubRole Demo.relay0 Demo.clash).1.1
    = Err (Errorf "Failed to declare exchange 'relay'! Got: Exception (406) Reason: PRECONDITION_FAILED") /\
  load PubRole (getChan PubRole Demo.relay0 Demo.clash).1.2 = Some 0%nat.
Proof.
  destruct (getChan_failed_declare_keeps_connection PubRole Demo.relay0 Demo.clash
              0%nat 1%nat Mem.ErrPrecondition) as (Hres & Hslot & _).
  - by_eval.
  - by_eval.
  - split; [exact Hres | exact Hslot].
Defined.

(** The wording of C9 in the specification fails on the code: New, Consumer
    and Publisher each register a finalizer. *)
Lemma no_finalizer_counterexample :
  ~ noFinalizer (added (New (S:=Mem.State) Demo.plain) Mem.start) /\
  ~ noFinalizer (added (Relay_Consumer "test" Demo.relayP)
                   (Relay_Publisher "test" Demo.relay0 (New Demo.plain Mem.start).2).2) /\
  ~ noFinalizer (added (Relay_Publisher "test" Demo.relay0)
                   (New Demo.plain Mem.start).2).
Proof.
  assert (Hin : forall evs f, EvSetFinalizer f ∈ evs -> ~ noFinalizer evs).
  { intros evs f Hin Hno. unfold noFinalizer in Hno. rewrite Forall_forall in Hno.
    by apply (Hno _ Hin f). }
  split; [|split].
  - apply (Hin _ RelayClose). by_eval.
  - apply (Hin _ (ConsumerClose 3%nat)). by_eval.
  - apply (Hin _ (PublisherClose 1%nat)). by_eval.
Qed.

(** ** How the handles are built *)

Section Builders.
Context {S : Type} `{!Amqp S}.

Lemma getChanRun_conf role r res r' evs :
  getChanRun role r res r' evs -> conf r' = conf r.
Proof. intros Run. destruct Run; by rewrite ?conf_store. Qed.

Lemma declareQueue_run (r : Relay) (ch : Chan) (name : string) (w : World S) :
  exists evs : list Event,
    trace (declareQueue r ch name w).2 = trace w ++ evs /\
    declareQueueRun (conf r) ch name (declareQueue r ch name w).1 evs.
Proof.
  unfold declareQueue. run.
  destruct (Channel_QueueDeclare ch name true false false false (outside w))
    as [[e|] s1]; run.
  { eexists. split; [reflexivity|]. apply Queue_refused. }
  destruct (Channel_QueueBind ch name name (Exchange (conf r)) false s1)
    as [[e|] s2]; run; rewrite <- !app_assoc.
  - eexists. split; [reflexivity|]. apply Bind_refused.
  - eexists. split; [reflexivity|]. apply Queue_bound.
Qed.

(** Consumer: getChan on the consume slot, then declareQueue, then the
    rest; the Relay it returns is the one getChan returned. *)
Lemma Relay_Consumer_run (queue : string) (r : Relay) (w : World S) :
  (Relay_Consumer queue r w).1.2 = (getChan ConsRole r w).1.2 /\
  match (getChan ConsRole r w).1.1 with
  | Err e =>
      (Relay_Consumer queue r w).1.1 = Err e /\
      added (Relay_Consumer queue r) w = added (getChan ConsRole r) w
  | Ok ch =>
      exists qres qevs tail,
        declareQueueRun (conf r) ch (queueName queue) qres qevs /\
        added (Relay_Consumer queue r) w
          = added (getChan ConsRole r) w ++ qevs ++ tail /\
        match qres with
        | Some err => (Relay_Consumer queue r w).1.1 = Err err /\ tail = []
        | None =>
            consumerTail (conf r) (queueName queue) ch
              (Relay_Consumer queue r w).1.1 tail
        end
  end.
Proof.
  destruct (getChan_run_trace ConsRole r w) as (gevs & Htr & Run).
  rewrite (added_app _ _ _ Htr).
  apply getChanRun_conf in Run. revert Htr Run.
  unfold added, Relay_Consumer. rewrite bind_run.
  destruct (getChan ConsRole r w) as [[[ch|e] r1] w1]; cbn [fst snd];
    intros Htr Hconf.
  2:{ rewrite ret_run. cbn [fst snd]. rewrite Htr, drop_app_length. done. }
  rewrite bind_run.
  destruct (declareQueue_run r1 ch (queueName queue) w1) as (qevs & Hq & QRun).
  rewrite Hconf in QRun.
  destruct (declareQueue r1 ch (queueName queue) w1) as [qres w2]; cbn [fst snd] in *.
  destruct qres as [err|].
  { rewrite ret_run. cbn [fst snd]. split; [done|].
    exists (Some err), qevs, []. split; [done|].
    rewrite Hq, Htr, app_nil_r, <- app_assoc, drop_app_length. done. }
  assert (Hw2 : trace w2 = trace w ++ gevs ++ qevs) by (by rewrite Hq, Htr, <- app_assoc).
  clear Hq Htr. rewrite Hconf.
  destruct (decide (0 < PrefetchCount (conf r))) as [Hpre|Hpre]; run.
  - destruct (Channel_Qos ch (PrefetchCount (conf r)) 0 false (outside w2))
      as [[e|] s3]; run.
    { split; [done|]. exists None, qevs, [EvQos ch (PrefetchCount (conf r)) 0 false (Some e)].
      split; [done|]. rewrite Hw2, <- !app_assoc, drop_app_length.
      split; [done|]. by apply Tail_no_qos. }
    destruct (channelName s3) as [[consName|e] s4]; run.
    2:{ split; [done|]. eexists None, qevs, _. split; [done|].
        rewrite Hw2, <- !app_assoc, drop_app_length. split; [reflexivity|].
        pose proof (Tail_no_name (conf r) (queueName queue) ch e) as T.
        unfold qosEvents in T. by rewrite decide_True in T. }
    destruct (Channel_Consume ch (queueName queue) consName false false false false s4)
      as [[readCh|e] s5]; run.
    + split; [done|]. eexists None, qevs, _. split; [done|].
      rewrite Hw2, <- !app_assoc, drop_app_length. split; [reflexivity|].
      pose proof (Tail_consumer (conf r) (queueName queue) ch consName readCh) as T.
      unfold qosEvents in T. by rewrite decide_True in T.
    + split; [done|]. eexists None, qevs, _. split; [done|].
      rewrite Hw2, <- !app_assoc, drop_app_length. split; [reflexivity|].
      pose proof (Tail_no_consume (conf r) (queueName queue) ch consName e) as T.
      unfold qosEvents in T. by rewrite decide_True in T.
  - destruct (channelName (outside w2)) as [[consName|e] s4]; run.
    2:{ split; [done|]. eexists None, qevs, _. split; [done|].
        rewrite Hw2, <- !app_assoc, drop_app_length. split; [reflexivity|].
        pose proof (Tail_no_name (conf r) (queueName queue) ch e) as T.
        unfold qosEvents in T. by rewrite decide_False in T. }
    destruct (Channel_Consume ch (queueName queue) consName false false false false s4)
      as [[readCh|e] s5]; run.
    + split; [done|]. eexists None, qevs, _. split; [done|].
      rewrite Hw2, <- !app_assoc, drop_app_length. split; [reflexivity|].
      pose proof (Tail_consumer (conf r) (queueName queue) ch consName readCh) as T.
      unfold qosEvents in T. by rewrite decide_False in T.
    + split; [done|]. eexists None, qevs, _. split; [done|].
      rewrite Hw2, <- !app_assoc, drop_app_length. split; [reflexivity|].
      pose proof (Tail_no_consume (conf r) (queueName queue) ch consName e) as T.
      unfold qosEvents in T. by rewrite decide_False in T.
Qed.

(** Publisher: getChan on the publish slot, then declareQueue, then the
    rest. *)
Lemma Relay_Publisher_run (queue : string) (r : Relay) (w : World S) :
  (Relay_Publisher queue r w).1.2 = (getChan PubRole r w).1.2 /\
  match (getChan PubRole r w).1.1 with
  | Err e =>
      (Relay_Publisher queue r w).1.1 = Err e /\
      added (Relay_Publisher queue r) w = added (getChan PubRole r) w
  | Ok ch =>
      exists qres qevs tail,
        declareQueueRun (conf r) ch (queueName queue) qres qevs /\
        added (Relay_Publisher queue r) w
          = added (getChan PubRole r) w ++ qevs ++ tail /\
        match qres with
        | Some err => (Relay_Publisher queue r w).1.1 = Err err /\ tail = []
        | None =>
            publisherTail (conf r) (queueName queue) ch
              (Relay_Publisher queue r w).1.1 tail
        end
  end.
Proof.
  destruct (getChan_run_trace PubRole r w) as (gevs & Htr & Run).
  rewrite (added_app _ _ _ Htr).
  apply getChanRun_conf in Run. revert Htr Run.
  unfold added, Relay_Publisher. rewrite bind_run.
  destruct (getChan PubRole r w) as [[[ch|e] r1] w1]; cbn [fst snd];
    intros Htr Hconf.
  2:{ rewrite ret_run. cbn [fst snd]. rewrite Htr, drop_app_length. done. }
  rewrite bind_run.
  destruct (declareQueue_run r1 ch (queueName queue) w1) as (qevs & Hq & QRun).
  rewrite Hconf in QRun.
  destruct (declareQueue r1 ch (queueName queue) w1) as [qres w2]; cbn [fst snd] in *.
  destruct qres as [err|].
  { rewrite ret_run. cbn [fst snd]. split; [done|].
    exists (Some err), qevs, []. split; [done|].
    rewrite Hq, Htr, app_nil_r, <- app_assoc, drop_app_length. done. }
  assert (Hw2 : trace w2 = trace w ++ gevs ++ qevs) by (by rewrite Hq, Htr, <- app_assoc).
  clear Hq Htr. rewrite Hconf.
  destruct (DisablePublishConfirm (conf r)) eqn:Hno; cbn [negb]; run.
  - split; [done|]. eexists None, qevs, _. split; [done|].
    rewrite Hw2, <- !app_assoc, drop_app_length. split; [reflexivity|].
    by apply Tail_unconfirmed.
  - destruct (Channel_NotifyClose ch (outside w2)) as [[] s3]; run.
    destruct (Channel_NotifyConfirm ch s3) as [[] s4]; run.
    destruct (Channel_Confirm ch false s4) as [[e|] s5]; run.
    + split; [done|]. eexists None, qevs, _. split; [done|].
      rewrite Hw2, <- !app_assoc, drop_app_length. split; [reflexivity|].
      by apply Tail_no_confirm.
    + split; [done|]. eexists None, qevs, _. split; [done|].
      rewrite Hw2, <- !app_assoc, drop_app_length. split; [reflexivity|].
      by apply Tail_confirmed.
Qed.

End Builders.

(** ** More on getChan: slots, lock and dials *)

Section Slots.
Context {S : Type} `{!Amqp S}.

Lemma load_store_otherRole (role : Role) (v : option Conn) (r : Relay) :
  load (otherRole role) (store role v r) = load (otherRole role) r.
Proof. by destruct role. Qed.

Lemma getChanRun_other role r res r' evs :
  getChanRun role r res r' evs -> load (otherRole role) r' = load (otherRole role) r.
Proof. intros Run. destruct Run; by rewrite ?load_store_otherRole. Qed.

Lemma getChanRun_keeps role r res r' evs c :
  getChanRun role r res r' evs -> load role r = Some c -> r' = r.
Proof. intros Run Hslot. destruct Run; congruence. Qed.

(** The events of getChan are lock events and work on the slot. *)
Lemma getChanRun_events role r res r' evs :
  getChanRun role r res r' evs ->
  Forall (fun ev => isLockEvent ev || isSlotWork ev = true) evs.
Proof.
  intros Run. destruct Run; unfold dialEvents; cbn [app];
    repeat (apply Forall_cons; split; [reflexivity|]); constructor.
Qed.

Lemma declareQueueRun_events cf ch name res evs :
  declareQueueRun cf ch name res evs ->
  Forall (fun ev => isLockEvent ev || isSlotWork ev || isClose ev = false) evs.
Proof.
  intros Run. destruct Run; unfold queueEvents;
    repeat (apply Forall_cons; split; [reflexivity|]); constructor.
Qed.

Lemma consumerTail_events cf name ch res evs :
  consumerTail cf name ch res evs ->
  Forall (fun ev => isLockEvent ev || isSlotWork ev || isClose ev = false) evs.
Proof.
  intros Run. destruct Run; unfold qosEvents; try case_decide; cbn [app];
    repeat (apply Forall_cons; split; [reflexivity|]); constructor.
Qed.

Lemma publisherTail_events cf name ch res evs :
  publisherTail cf name ch res evs ->
  Forall (fun ev => isLockEvent ev || isSlotWork ev || isClose ev = false) evs.
Proof.
  intros Run. destruct Run;
    repeat (apply Forall_cons; split; [reflexivity|]); constructor.
Qed.

(** X3. getChan works on the slot it is given only: the other slot and the
    configuration are as before, and a slot that holds a connection keeps
    it.  So Consumer never touches the publish connection and Publisher
    never touches the consume connection. *)
Theorem getChan_works_on_its_slot_only
    (role : Role) (queue : string) (r : Relay) (w : World S) :
  load (otherRole role) (getChan role r w).1.2 = load (otherRole role) r /\
  conf (getChan role r w).1.2 = conf r /\
  (forall c, load role r = Some c -> (getChan role r w).1.2 = r) /\
  pubConn (Relay_Consumer queue r w).1.2 = pubConn r /\
  conf (Relay_Consumer queue r w).1.2 = conf r /\
  consConn (Relay_Publisher queue r w).1.2 = consConn r /\
  conf (Relay_Publisher queue r w).1.2 = conf r.
Proof.
  pose proof (getChan_run role r w) as Run.
  pose proof (getChan_run ConsRole r w) as RunC.
  pose proof (getChan_run PubRole r w) as RunP.
  destruct (Relay_Consumer_run queue r w) as [HC _].
  destruct (Relay_Publisher_run queue r w) as [HP _].
  rewrite HC, HP.
  split; [by apply getChanRun_other in Run|].
  split; [by apply getChanRun_conf in Run|].
  split; [intros c Hc; by eapply getChanRun_keeps|].
  split; [by apply getChanRun_other in RunC|].
  split; [by apply getChanRun_conf in RunC|].
  split; [by apply getChanRun_other in RunP|].
  by apply getChanRun_conf in RunP.
Qed.

(** X4. On every path through getChan, the three error returns included,
    the lock is taken first and released last, and not touched in between.
    In Consumer and Publisher everything after getChan (queue, prefetch,
    consumer start, confirm mode, finalizer) happens after the lock has been
    released: none of it takes the lock or works on a slot. *)
Theorem lock_taken_first_released_last
    (role : Role) (queue : string) (r : Relay) (w : World S) :
  (exists mid,
      added (getChan role r) w = EvLock :: mid ++ [EvUnlock] /\
      Forall (fun ev => isLockEvent ev = false) mid) /\
  (exists rest,
      added (Relay_Consumer queue r) w = added (getChan ConsRole r) w ++ rest /\
      Forall (fun ev => isLockEvent ev || isSlotWork ev = false) rest) /\
  (exists rest,
      added (Relay_Publisher queue r) w = added (getChan PubRole r) w ++ rest /\
      Forall (fun ev => isLockEvent ev || isSlotWork ev = false) rest).
Proof.
  assert (Weaken : forall evs,
            Forall (fun ev => isLockEvent ev || isSlotWork ev || isClose ev = false) evs ->
            Forall (fun ev => isLockEvent ev || isSlotWork ev = false) evs).
  { intros evs Hall. eapply Forall_impl; [exact Hall|]. intros ev Hev.
    cbv beta in Hev. destruct (isLockEvent ev || isSlotWork ev); [discriminate|done]. }
  split; [|split].
  - destruct (getChan_run role r w); unfold dialEvents; cbn [app].
    + exists [EvChannel c (Ok ch)]. split; [done|]. by repeat constructor.
    + exists [EvChannel c (Err e)]. split; [done|]. by repeat constructor.
    + exists [EvDial (dialURI (conf r)) (Err e)]. split; [done|]. by repeat constructor.
    + eexists [_; _; _; _; _]. split; [reflexivity|]. by repeat constructor.
    + eexists [_; _; _; _; _; _]. split; [reflexivity|]. by repeat constructor.
    + eexists [_; _; _; _; _; _]. split; [reflexivity|]. by repeat constructor.
  - destruct (Relay_Consumer_run queue r w) as [_ Run].
    destruct (getChan ConsRole r w).1.1 as [ch|e].
    + destruct Run as (qres & qevs & tail & QRun & Hev & Htail).
      exists (qevs ++ tail). split; [done|].
      apply Forall_app. split.
      * apply Weaken. by apply declareQueueRun_events in QRun.
      * destruct qres as [err|].
        -- destruct Htail as [_ ->]. constructor.
        -- apply Weaken. by apply consumerTail_events in Htail.
    + destruct Run as [_ Hev]. exists []. split; [by rewrite app_nil_r|constructor].
  - destruct (Relay_Publisher_run queue r w) as [_ Run].
    destruct (getChan PubRole r w).1.1 as [ch|e].
    + destruct Run as (qres & qevs & tail & QRun & Hev & Htail).
      exists (qevs ++ tail). split; [done|].
      apply Forall_app. split.
      * apply Weaken. by apply declareQueueRun_events in QRun.
      * destruct qres as [err|].
        -- destruct Htail as [_ ->]. constructor.
        -- apply Weaken. by apply publisherTail_events in Htail.
    + destruct Run as [_ Hev]. exists []. split; [by rewrite app_nil_r|constructor].
Qed.

End Slots.

(** ** Cleared slots, failed channels and the number of dials *)

Section Redial.
Context {S : Type} `{!Amqp S}.

Lemma stops_Exists (rx : list Recv) :
  existsb stops rx = true <-> Exists (fun x => stops x = true) rx.
Proof.
  rewrite existsb_exists, Exists_exists. split.
  - intros (x & Hin & Hx). exists x. by apply list_elem_of_In in Hin.
  - intros (x & Hin & Hx). exists x. by apply list_elem_of_In in Hin.
Qed.

Lemma watchConn_run (role : Role) (rx : list Recv) (r : Relay) (w : World S) :
  exists logs : list Event,
    Forall isLog logs /\
    watchConn role rx r w =
      if existsb stops rx
      then ((true, store role None r),
            mkWorld (outside w)
              (trace w ++ logs ++ [EvLock; EvStore role None; EvUnlock]))
      else ((false, r), mkWorld (outside w) (trace w ++ logs)).
Proof.
  destruct (watchLoop_run rx w) as (logs & Hlogs & Hrun).
  exists logs. split; [done|].
  unfold watchConn. rewrite bind_run, Hrun. cbn [fst snd].
  destruct (existsb stops rx); [|reflexivity].
  unfold setConn. run. by rewrite <- !app_assoc.
Qed.

Lemma Relay_Close_run (r : Relay) (w : World S) :
  (Relay_Close r w).1.2 = mkRelay (conf r) None None /\
  added (Relay_Close r) w =
    [EvLock]
      ++ slotEvents PubRole (pubConn r) (slotClose (pubConn r) (outside w)).1
      ++ slotEvents ConsRole (consConn r)
           (slotClose (consConn r) (slotClose (pubConn r) (outside w)).2).1
      ++ [EvUnlock].
Proof.
  unfold added, Relay_Close. run. rewrite closeSlot_run. cbn [fst snd].
  run. rewrite closeSlot_run.
  cbn [fst snd outside trace load store pubConn consConn conf].
  run. split; [reflexivity|].
  by rewrite <- !app_assoc, drop_app_length.
Qed.

(** On an empty slot getChan dials, right after taking the lock. *)
Lemma getChan_empty_dials (role : Role) (r : Relay) (w : World S) :
  load role r = None ->
  exists res rest,
    added (getChan role r) w = EvLock :: EvDial (dialURI (conf r)) res :: rest.
Proof.
  intros Hslot. destruct (getChan_run role r w); unfold dialEvents; cbn [app];
    try congruence; by eexists _, _.
Qed.

(** X6. A slot that has been cleared is dialed again by the next getChan
    on it, with the URI of the unchanged configuration: after the watcher of
    the role has left its loop, and, for both roles, after Close.  A Relay
    can thus be used again after Close. *)
Theorem cleared_slot_is_redialed
    (role : Role) (rx : list Recv) (r : Relay) (w w2 : World S) :
  (Exists (fun x => stops x = true) rx ->
   exists res rest,
     added (getChan role (watchConn role rx r w).1.2) w2
       = EvLock :: EvDial (dialURI (conf r)) res :: rest) /\
  (exists res rest,
     added (getChan role (Relay_Close r w).1.2) w2
       = EvLock :: EvDial (dialURI (conf r)) res :: rest).
Proof.
  split.
  - intros Hstop. apply stops_Exists in Hstop.
    destruct (watchConn_run role rx r w) as (logs & _ & Hrun).
    rewrite Hrun, Hstop. cbn [fst snd].
    destruct (getChan_empty_dials role (store role None r) w2 (load_store _ _ _))
      as (res & rest & Hev).
    rewrite conf_store in Hev. by exists res, rest.
  - destruct (Relay_Close_run r w) as [-> _].
    destruct (getChan_empty_dials role (mkRelay (conf r) None None) w2)
      as (res & rest & Hev); [by destruct role|].
    by exists res, rest.
Qed.

(** X7. The watcher closes nothing: it never calls Close on a connection or
    a channel and leaves the outside world as it is.  The connection it
    drops from the slot is not closed later by Close of the Relay either
    (unless the other slot holds the same connection). *)
Theorem watchConn_never_closes_the_connection
    (role : Role) (rx : list Recv) (r : Relay) (w : World S) :
  Forall (fun ev => isClose ev = false) (added (watchConn role rx r) w) /\
  outside (watchConn role rx r w).2 = outside w /\
  (forall c : Conn,
      load role r = Some c ->
      load (otherRole role) r <> Some c ->
      Exists (fun x => stops x = true) rx ->
      forall (w2 : World S) (res : option error),
        EvConnClose c res ∉ added (Relay_Close (watchConn role rx r w).1.2) w2).
Proof.
  destruct (watchConn_run role rx r w) as (logs & Hlogs & Hrun).
  assert (Hquiet : Forall (fun ev => isClose ev = false) logs).
  { eapply Forall_impl; [exact Hlogs|]. by intros ev [e ->]. }
  split; [|split].
  - destruct (existsb stops rx).
    + rewrite (added_app _ _ (logs ++ [EvLock; EvStore role None; EvUnlock]))
        by (by rewrite Hrun).
      apply Forall_app. split; [done|]. by repeat constructor.
    + rewrite (added_app _ _ logs) by (by rewrite Hrun). done.
  - rewrite Hrun. by destruct (existsb stops rx).
  - intros c Hslot Hother Hstop w2 res Hin. apply stops_Exists in Hstop.
    rewrite Hrun, Hstop in Hin. cbn [fst snd] in Hin.
    destruct (Relay_Close_run (store role None r) w2) as [_ Hev].
    rewrite Hev in Hin. clear Hev.
    destruct role; cbn [store pubConn consConn slotEvents slotClose otherRole load app] in *.
    + destruct (consConn r) as [c'|]; cbn [slotEvents app] in Hin; in_list Hin.
      injection Hin as -> _. congruence.
    + destruct (pubConn r) as [c'|]; cbn [slotEvents app] in Hin; in_list Hin.
      injection Hin as -> _. congruence.
Qed.

(** X5. When getChan has dialed a new connection [nc] and cannot open a
    channel on it, it returns the channel error as it is, declares no
    exchange, and leaves [nc] in the slot.  The calls of getChan that follow
    on the role reuse [nc] and only open channels on it: getChan never
    declares the exchange on this connection. *)
Theorem getChan_failed_channel_skips_exchange
    (role : Role) (r : Relay) (w : World S) (nc : Conn) (e : error) :
  EvDial (dialURI (conf r)) (Ok nc) ∈ added (getChan role r) w ->
  EvChannel nc (Err e) ∈ added (getChan role r) w ->
  (getChan role r w).1.1 = Err e /\
  load role (getChan role r w).1.2 = Some nc /\
  Forall (fun ev => forall ch n k d a i nw res,
                      ev <> EvExchangeDeclare ch n k d a i nw res)
    (added (getChan role r) w) /\
  (forall (n : nat) (w2 : World S),
      (getChanTimes role n (getChan role r w).1.2 w2).1.2 = (getChan role r w).1.2 /\
      Forall (reuses nc) (added (getChanTimes role n (getChan role r w).1.2) w2)).
Proof.
  intros Hdial Hchan.
  pose proof (getChan_run role r w) as Run.
  assert (Hres : (getChan role r w).1.1 = Err e /\
                 (getChan role r w).1.2 = store role (Some nc) r /\
                 Forall (fun ev => forall ch n k d a i nw res,
                                     ev <> EvExchangeDeclare ch n k d a i nw res)
                   (added (getChan role r) w)).
  { destruct Run as [c0 ch0 _|c0 e0 _|e0 _|nc0 e0 _|nc0 ch0 _|nc0 ch0 e0 _];
      unfold dialEvents in *; cbn [app] in *.
    all: try (in_list Hdial; fail).
    all: try (in_list Hchan; fail).
    in_list Hdial. in_list Hchan.
    injection Hdial as ->. injection Hchan as ->.
    split; [done|]. split; [done|].
    repeat (apply Forall_cons; split; [intros; discriminate|]). constructor. }
  destruct Hres as (Hres & Hrel & Hnone). rewrite Hres, Hrel.
  split; [done|]. split; [apply load_store|]. split; [done|].
  intros n w2.
  destruct (getChanTimes_cached role nc n (store role (Some nc) r) w2
              (load_store _ _ _)) as (Hr & evs & Htr & Hall).
  split; [done|]. by rewrite (added_app _ _ _ Htr).
Qed.

End Redial.

(** ** Counting connections *)

Section Dials.
Context {S : Type} `{!Amqp S}.





End Dials.

(** ** New and declareQueue *)

Section MoreOnNew.
Context {S : Type} `{!Amqp S}.

(** X2. After New no field that has a default is left at its zero value
    (in particular the serializer is not nil), the four fields without a
    default are as given, and New applied to the resulting configuration
    changes nothing. *)
Theorem New_leaves_no_zero_value (c : Config) (w w2 : World S) :
  let c' := conf (newRelay c w) in
  Addr c' <> "" /\ Port c' <> 0 /\ Vhost c' <> "" /\ Username c' <> "" /\
  Password c' <> "" /\ Exchange c' <> "" /\ CSerializer c' <> None /\
  PrefetchCount c' = PrefetchCount c /\
  EnableMultiAck c' = EnableMultiAck c /\
  DisablePublishConfirm c' = DisablePublishConfirm c /\
  DisablePersistence c' = DisablePersistence c /\
  conf (newRelay c' w2) = c'.
Proof.
  cbn zeta.
  assert (Facts :
    Addr (conf (newRelay c w)) <> "" /\ Port (conf (newRelay c w)) <> 0 /\
    Vhost (conf (newRelay c w)) <> "" /\ Username (conf (newRelay c w)) <> "" /\
    Password (conf (newRelay c w)) <> "" /\ Exchange (conf (newRelay c w)) <> "" /\
    CSerializer (conf (newRelay c w)) <> None).
  { rewrite New_conf.
    cbn [Addr Port Vhost Username Password Exchange CSerializer].
    repeat split.
    - case_decide; [discriminate|done].
    - case_decide; [|done]. destruct (EnableTLS c); discriminate.
    - case_decide; [discriminate|done].
    - case_decide; [discriminate|done].
    - case_decide; [discriminate|done].
    - case_decide; [discriminate|done].
    - destruct (CSerializer c); discriminate. }
  destruct Facts as (Ha & Hp & Hv & Hu & Hw & He & Hs).
  repeat (split; [done|]).
  split; [by rewrite New_conf|]. split; [by rewrite New_conf|].
  split; [by rewrite New_conf|]. split; [by rewrite New_conf|].
  rewrite (New_conf (conf (newRelay c w)) w2).
  destruct (conf (newRelay c w)) as [addr port vhost user pass tls pre multi nocf nopers exch ser].
  cbn [Addr Port Vhost Username Password Exchange CSerializer EnableTLS
       PrefetchCount EnableMultiAck DisablePublishConfirm DisablePersistence] in *.
  rewrite !decide_False by done.
  by destruct ser.
Qed.

(** X1. declareQueue declares the queue durable, neither auto-deleted nor
    exclusive, and then binds it to the configured exchange with the queue
    name as binding key.  It binds only a queue whose declaration was
    accepted, returns nil exactly when both calls were accepted, and
    otherwise the error of the failed call wrapped with the queue name. *)
Theorem declareQueue_declares_then_binds
    (r : Relay) (ch : Chan) (name : string) (w : World S) :
  let evs := added (declareQueue r ch name) w in
  (exists qres, head evs = Some (EvQueueDeclare ch name true false false false qres)) /\
  (forall ch' n k x nw res,
      EvQueueBind ch' n k x nw res ∈ evs ->
      ch' = ch /\ n = name /\ k = name /\ x = Exchange (conf r) /\ nw = false /\
      evs = [EvQueueDeclare ch name true false false false None;
             EvQueueBind ch name name (Exchange (conf r)) false res]) /\
  ((declareQueue r ch name w).1 = None <->
     evs = [EvQueueDeclare ch name true false false false None;
            EvQueueBind ch name name (Exchange (conf r)) false None]) /\
  (forall e,
      EvQueueDeclare ch name true false false false (Some e) ∈ evs ->
      (declareQueue r ch name w).1
        = Some (Errorf ("Failed to declare queue '" +:+ name
                          +:+ "'! Got: " +:+ error_string e))) /\
  (forall e,
      EvQueueBind ch name name (Exchange (conf r)) false (Some e) ∈ evs ->
      (declareQueue r ch name w).1
        = Some (Errorf ("Failed to bind queue '" +:+ name
                          +:+ "'! Got: " +:+ error_string e))).
Proof.
  cbn zeta. destruct (declareQueue_run r ch name w) as (evs & Htr & Run).
  rewrite (added_app _ _ _ Htr).
  destruct Run as [e0|e0|]; unfold queueEvents.
  - split; [by eexists|].
    split; [intros ch' n k x nw res Hin; in_list Hin|].
    split; [split; discriminate|].
    split; [intros e Hin; in_list Hin; by injection Hin as ->|].
    intros e Hin. in_list Hin.
  - split; [by eexists|].
    split; [intros ch' n k x nw res Hin; in_list Hin; by injection Hin as -> -> -> -> -> ->|].
    split; [split; discriminate|].
    split; [intros e Hin; in_list Hin|].
    intros e Hin. in_list Hin. by injection Hin as ->.
  - split; [by eexists|].
    split; [intros ch' n k x nw res Hin; in_list Hin; by injection Hin as -> -> -> -> -> ->|].
    split; [done|].
    split; intros e Hin; in_list Hin.
Qed.

End MoreOnNew.

(** ** What Consumer and Publisher hand out *)

(** Refutes a membership [Hin] of an event that getChan never makes. *)
Ltac not_in_getChan Hin Run :=
  apply getChanRun_events in Run; rewrite Forall_forall in Run;
  specialize (Run _ Hin); discriminate Run.

(** Locates a membership [Hin] in the events of getChan (refuted), of
    declareQueue or of what follows. *)
Ltac split_trace Hin GRun :=
  apply elem_of_app in Hin as [Hin|Hin]; [not_in_getChan Hin GRun|];
  apply elem_of_app in Hin as [Hin|Hin].

Section HandedOut.
Context {S : Type} `{!Amqp S}.

(** A channel getChan returns has been opened, in that call, on the
    connection the slot holds afterwards. *)
Lemma getChanRun_channel role r ch r' evs :
  getChanRun role r (Ok ch) r' evs ->
  exists c, load role r' = Some c /\ EvChannel c (Ok ch) ∈ evs.
Proof.
  intros Run.
  remember (Ok ch) as res eqn:Hres.
  destruct Run as [c0 ch0 H0|c0 e H0|e H0|nc e H0|nc ch0 H0|nc ch0 e H0];
    try discriminate; injection Hres as ->; unfold dialEvents; cbn [app].
  - exists c0. split; [done|]. set_solver.
  - exists nc. split; [apply load_store|]. set_solver.
Qed.

(** The handle and the events of a Consumer call that succeeds. *)
Lemma Relay_Consumer_ok (queue : string) (r : Relay) (w : World S) (handle : Consumer) :
  (Relay_Consumer queue r w).1.1 = Ok handle ->
  exists (ch : Chan) (consName : string) (readCh : Stream),
    (getChan ConsRole r w).1.1 = Ok ch /\
    handle = mkConsumer (conf r) consName (queueName queue) (Some ch) readCh 0 false /\
    added (Relay_Consumer queue r) w =
      added (getChan ConsRole r) w
        ++ queueEvents (conf r) ch (queueName queue)
        ++ qosEvents (conf r) ch
        ++ [EvChannelName (Ok consName);
            EvConsume ch (queueName queue) consName false false false false (Ok readCh);
            EvSetFinalizer (ConsumerClose ch)].
Proof.
  intros Hok.
  destruct (Relay_Consumer_run queue r w) as [Hrel Run].
  destruct (getChan ConsRole r w).1.1 as [ch|e] eqn:Hg.
  2:{ destruct Run as [Herr _]. congruence. }
  destruct Run as (qres & qevs & tail & QRun & Hev & Htail).
  destruct qres as [err|]; [destruct Htail; congruence|].
  rewrite Hok in Htail.
  remember (Ok handle) as res eqn:Hres.
  destruct Htail as [e Hpre|e|consName e|consName readCh]; try discriminate.
  injection Hres as <-.
  remember None as qres eqn:Hq.
  destruct QRun as [e0|e0|]; try discriminate.
  by exists ch, consName, readCh.
Qed.

(** The handle and the events of a Publisher call that succeeds. *)
Lemma Relay_Publisher_ok (queue : string) (r : Relay) (w : World S) (handle : Publisher) :
  (Relay_Publisher queue r w).1.1 = Ok handle ->
  exists (ch : Chan) (tail : list Event),
    (getChan PubRole r w).1.1 = Ok ch /\
    publisherTail (conf r) (queueName queue) ch (Ok handle) tail /\
    added (Relay_Publisher queue r) w =
      added (getChan PubRole r) w ++ queueEvents (conf r) ch (queueName queue) ++ tail.
Proof.
  intros Hok.
  destruct (Relay_Publisher_run queue r w) as [Hrel Run].
  destruct (getChan PubRole r w).1.1 as [ch|e] eqn:Hg.
  2:{ destruct Run as [Herr _]. congruence. }
  destruct Run as (qres & qevs & tail & QRun & Hev & Htail).
  destruct qres as [err|]; [destruct Htail; congruence|].
  rewrite Hok in Htail.
  remember None as qres eqn:Hq.
  destruct QRun as [e0|e0|]; try discriminate.
  by exists ch, tail.
Qed.

(** X10. A Consumer call that returns a handle has, in this order: got a
    channel from getChan, opened in this call on the connection of the
    consume slot; declared and bound the queue on it; set the prefetch count
    when it is positive; fetched a consumer name; started consuming on that
    queue and channel under that name with automatic acknowledgement off;
    registered the finalizer.  The handle owns that channel and stream, has
    the configuration of the Relay and no pending delivery. *)
Theorem Relay_Consumer_hands_out
    (queue : string) (r : Relay) (w : World S) (handle : Consumer) :
  (Relay_Consumer queue r w).1.1 = Ok handle ->
  exists (c : Conn) (ch : Chan) (consName : string) (readCh : Stream),
    consConn (Relay_Consumer queue r w).1.2 = Some c /\
    EvChannel c (Ok ch) ∈ added (getChan ConsRole r) w /\
    handle = mkConsumer (conf r) consName (queueName queue) (Some ch) readCh 0 false /\
    added (Relay_Consumer queue r) w =
      added (getChan ConsRole r) w
        ++ [EvQueueDeclare ch (queueName queue) true false false false None;
            EvQueueBind ch (queueName queue) (queueName queue) (Exchange (conf r))
              false None]
        ++ (if decide (0 < PrefetchCount (conf r))
            then [EvQos ch (PrefetchCount (conf r)) 0 false None] else [])
        ++ [EvChannelName (Ok consName);
            EvConsume ch (queueName queue) consName false false false false (Ok readCh);
            EvSetFinalizer (ConsumerClose ch)].
Proof.
  intros Hok.
  destruct (Relay_Consumer_run queue r w) as [Hrel Run].
  pose proof (getChan_run ConsRole r w) as GRun.
  destruct (getChan ConsRole r w).1.1 as [ch|e] eqn:Hg.
  2:{ destruct Run as [Herr _]. congruence. }
  destruct Run as (qres & qevs & tail & QRun & Hev & Htail).
  destruct (getChanRun_channel _ _ _ _ _ GRun) as (c & Hslot & Hopen).
  destruct qres as [err|]; [destruct Htail; congruence|].
  rewrite Hok in Htail.
  remember (Ok handle) as res eqn:Hres.
  destruct Htail as [e Hpre|e|consName e|consName readCh]; try discriminate.
  injection Hres as <-.
  remember None as qres eqn:Hq.
  destruct QRun as [e0|e0|]; try discriminate.
  exists c, ch, consName, readCh.
  rewrite Hrel. split; [exact Hslot|]. split; [done|]. split; [done|].
  exact Hev.
Qed.

(** X9. Consumer asks for a prefetch limit only when the configured count
    is positive, and then with that count, size 0 and per channel; with a
    positive count it never starts consuming on a channel on which the limit
    has not been accepted. *)
Theorem Relay_Consumer_prefetch (queue : string) (r : Relay) (w : World S) :
  let evs := added (Relay_Consumer queue r) w in
  (forall ch count size g res,
      EvQos ch count size g res ∈ evs ->
      0 < PrefetchCount (conf r) /\ count = PrefetchCount (conf r) /\
      size = 0 /\ g = false) /\
  (forall ch name consName a x l nw res,
      EvConsume ch name consName a x l nw res ∈ evs ->
      0 < PrefetchCount (conf r) ->
      EvQos ch (PrefetchCount (conf r)) 0 false None ∈ evs).
Proof.
  cbn zeta.
  destruct (Relay_Consumer_run queue r w) as [_ Run].
  pose proof (getChan_run ConsRole r w) as GRun.
  destruct (getChan ConsRole r w).1.1 as [ch0|e0].
  2:{ destruct Run as [_ ->].
      split; [intros ch count size g res Hin|intros ch name cn a x l nw res Hin _];
        not_in_getChan Hin GRun. }
  destruct Run as (qres & qevs & tail & QRun & -> & Htail).
  split.
  - intros ch count size g res Hin.
    apply elem_of_app in Hin as [Hin|Hin]; [not_in_getChan Hin GRun|].
    apply elem_of_app in Hin as [Hin|Hin].
    { destruct QRun; unfold queueEvents in Hin; in_list Hin. }
    destruct qres as [err|]; [destruct Htail as [_ ->]; in_list Hin|].
    destruct Htail; unfold qosEvents in Hin; try case_decide; cbn [app] in Hin;
      in_list Hin; by injection Hin as -> -> -> ->.
  - intros ch name cn a x l nw res Hin Hpre.
    apply elem_of_app in Hin as [Hin|Hin]; [not_in_getChan Hin GRun|].
    apply elem_of_app in Hin as [Hin|Hin].
    { destruct QRun; unfold queueEvents in Hin; in_list Hin. }
    destruct qres as [err|]; [destruct Htail as [_ ->]; in_list Hin|].
    apply elem_of_app. right. apply elem_of_app. right.
    destruct Htail; unfold qosEvents in *; rewrite ?decide_True in * by done;
      cbn [app] in *; in_list Hin; injection Hin as -> _; set_solver.
Qed.

(** X11. Consumer returns the error of the first step that fails: the error
    of getChan as it is; a refused queue declaration or binding wrapped with
    the queue name; a refused prefetch limit and a refused start of
    consumption wrapped with their own texts; the error of channelName as it
    is. *)
Theorem Relay_Consumer_errors (queue : string) (r : Relay) (w : World S) (e : error) :
  let evs := added (Relay_Consumer queue r) w in
  let res := (Relay_Consumer queue r w).1.1 in
  ((getChan ConsRole r w).1.1 = Err e -> res = Err e) /\
  (forall ch n d a x nw,
      EvQueueDeclare ch n d a x nw (Some e) ∈ evs ->
      res = Err (Errorf ("Failed to declare queue '" +:+ queueName queue
                           +:+ "'! Got: " +:+ error_string e))) /\
  (forall ch n k x nw,
      EvQueueBind ch n k x nw (Some e) ∈ evs ->
      res = Err (Errorf ("Failed to bind queue '" +:+ queueName queue
                           +:+ "'! Got: " +:+ error_string e))) /\
  (forall ch count size g,
      EvQos ch count size g (Some e) ∈ evs ->
      res = Err (Errorf ("Failed to set Qos prefetch! Got: " +:+ error_string e))) /\
  (EvChannelName (Err e) ∈ evs -> res = Err e) /\
  (forall ch n consName a x l nw,
      EvConsume ch n consName a x l nw (Err e) ∈ evs ->
      res = Err (Errorf ("Failed to start consuming messages! Got: "
                           +:+ error_string e))).
Proof.
  cbn zeta.
  destruct (Relay_Consumer_run queue r w) as [_ Run].
  pose proof (getChan_run ConsRole r w) as GRun.
  destruct (getChan ConsRole r w).1.1 as [ch0|e0].
  2:{ destruct Run as [Hres ->].
      split; [by intros [= ->]|].
      split; [intros ch n d a x nw Hin; not_in_getChan Hin GRun|].
      split; [intros ch n k x nw Hin; not_in_getChan Hin GRun|].
      split; [intros ch count size g Hin; not_in_getChan Hin GRun|].
      split; [intros Hin; not_in_getChan Hin GRun|].
      intros ch n consName a x l nw Hin; not_in_getChan Hin GRun. }
  destruct Run as (qres & qevs & tail & QRun & -> & Htail).
  split; [discriminate|].
  split; [|split; [|split; [|split]]].
  - intros ch n d a x nw Hin. split_trace Hin GRun.
    + destruct QRun; unfold queueEvents in Hin; in_list Hin; inversion Hin; subst.
      by destruct Htail as [-> _].
    + destruct qres as [err|]; [destruct Htail as [_ ->]; in_list Hin|].
      destruct Htail; unfold qosEvents in Hin; try case_decide; cbn [app] in Hin;
        in_list Hin.
  - intros ch n k x nw Hin. split_trace Hin GRun.
    + destruct QRun; unfold queueEvents in Hin; in_list Hin; inversion Hin; subst.
      by destruct Htail as [-> _].
    + destruct qres as [err|]; [destruct Htail as [_ ->]; in_list Hin|].
      destruct Htail; unfold qosEvents in Hin; try case_decide; cbn [app] in Hin;
        in_list Hin.
  - intros ch count size g Hin. split_trace Hin GRun.
    + destruct QRun; unfold queueEvents in Hin; in_list Hin.
    + destruct qres as [err|]; [destruct Htail as [_ ->]; in_list Hin|].
      destruct Htail; unfold qosEvents in Hin; try case_decide; cbn [app] in Hin;
        in_list Hin; inversion Hin; by subst.
  - intros Hin. split_trace Hin GRun.
    + destruct QRun; unfold queueEvents in Hin; in_list Hin.
    + destruct qres as [err|]; [destruct Htail as [_ ->]; in_list Hin|].
      destruct Htail; unfold qosEvents in Hin; try case_decide; cbn [app] in Hin;
        in_list Hin; inversion Hin; by subst.
  - intros ch n consName a x l nw Hin. split_trace Hin GRun.
    + destruct QRun; unfold queueEvents in Hin; in_list Hin.
    + destruct qres as [err|]; [destruct Htail as [_ ->]; in_list Hin|].
      destruct Htail; unfold qosEvents in Hin; try case_decide; cbn [app] in Hin;
        in_list Hin; inversion Hin; by subst.
Qed.

(** X12. A Publisher call that returns a handle has got a channel from
    getChan, opened in this call on the connection of the publish slot, and
    declared and bound the queue on it.  The handle owns that channel,
    publishes to the derived queue name with the content type of the
    configured serializer, transient exactly when persistence is disabled.
    Unless confirmations are disabled, the close and confirm notifications
    have been registered, the channel has been put in confirm mode in that
    order, and the handle listens on them; with confirmations disabled none
    of this is done and the handle listens on nothing. *)
Theorem Relay_Publisher_hands_out
    (queue : string) (r : Relay) (w : World S) (handle : Publisher) :
  (Relay_Publisher queue r w).1.1 = Ok handle ->
  exists (c : Conn) (ch : Chan),
    pubConn (Relay_Publisher queue r w).1.2 = Some c /\
    EvChannel c (Ok ch) ∈ added (getChan PubRole r) w /\
    p_channel handle = Some ch /\
    p_conf handle = conf r /\
    p_queue handle = queueName queue /\
    p_contentType handle = ContentType (confSerializer (conf r)) /\
    p_mode handle = (if DisablePersistence (conf r) then Transient else Persistent) /\
    (p_ackCh handle, p_nackCh handle, p_errCh handle)
      = (if DisablePublishConfirm (conf r) then (None, None, None)
         else (Some ch, Some ch, Some ch)) /\
    added (Relay_Publisher queue r) w =
      added (getChan PubRole r) w
        ++ [EvQueueDeclare ch (queueName queue) true false false false None;
            EvQueueBind ch (queueName queue) (queueName queue) (Exchange (conf r))
              false None]
        ++ (if DisablePublishConfirm (conf r) then []
            else [EvChNotifyClose ch; EvNotifyConfirm ch; EvConfirm ch false None])
        ++ [EvSetFinalizer (PublisherClose ch)].
Proof.
  intros Hok.
  destruct (Relay_Publisher_run queue r w) as [Hrel Run].
  pose proof (getChan_run PubRole r w) as GRun.
  destruct (getChan PubRole r w).1.1 as [ch|e] eqn:Hg.
  2:{ destruct Run as [Herr _]. congruence. }
  destruct Run as (qres & qevs & tail & QRun & Hev & Htail).
  destruct (getChanRun_channel _ _ _ _ _ GRun) as (c & Hslot & Hopen).
  destruct qres as [err|]; [destruct Htail; congruence|].
  rewrite Hok in Htail.
  remember (Ok handle) as res eqn:Hres.
  remember None as qres eqn:Hq.
  destruct QRun as [e0|e0|]; try discriminate.
  destruct Htail as [Hno|e Hno|Hno]; try discriminate; injection Hres as <-;
    exists c, ch; rewrite Hrel, Hev, Hno; unfold plainPublisher;
    cbn [p_channel p_conf p_queue p_contentType p_mode p_ackCh p_nackCh p_errCh];
    repeat (split; [done|]); reflexivity.
Qed.

(** X13. Publisher returns the error of the first step that fails: the
    error of getChan as it is, a refused queue declaration or binding
    wrapped with the queue name, a refused confirm mode wrapped with its own
    text.  It asks for confirm mode only when confirmations are not
    disabled. *)
Theorem Relay_Publisher_errors (queue : string) (r : Relay) (w : World S) (e : error) :
  let evs := added (Relay_Publisher queue r) w in
  let res := (Relay_Publisher queue r w).1.1 in
  ((getChan PubRole r w).1.1 = Err e -> res = Err e) /\
  (forall ch n d a x nw,
      EvQueueDeclare ch n d a x nw (Some e) ∈ evs ->
      res = Err (Errorf ("Failed to declare queue '" +:+ queueName queue
                           +:+ "'! Got: " +:+ error_string e))) /\
  (forall ch n k x nw,
      EvQueueBind ch n k x nw (Some e) ∈ evs ->
      res = Err (Errorf ("Failed to bind queue '" +:+ queueName queue
                           +:+ "'! Got: " +:+ error_string e))) /\
  (forall ch nw,
      EvConfirm ch nw (Some e) ∈ evs ->
      res = Err (Errorf ("Failed to put publisher in confirm mode! Got: "
                           +:+ error_string e))) /\
  (forall ch nw cres,
      EvConfirm ch nw cres ∈ evs ->
      DisablePublishConfirm (conf r) = false /\ nw = false).
Proof.
  cbn zeta.
  destruct (Relay_Publisher_run queue r w) as [_ Run].
  pose proof (getChan_run PubRole r w) as GRun.
  destruct (getChan PubRole r w).1.1 as [ch0|e0].
  2:{ destruct Run as [Hres ->].
      split; [by intros [= ->]|].
      split; [intros ch n d a x nw Hin; not_in_getChan Hin GRun|].
      split; [intros ch n k x nw Hin; not_in_getChan Hin GRun|].
      split; [intros ch nw Hin; not_in_getChan Hin GRun|].
      intros ch nw cres Hin; not_in_getChan Hin GRun. }
  destruct Run as (qres & qevs & tail & QRun & -> & Htail).
  split; [discriminate|].
  split; [|split; [|split]].
  - intros ch n d a x nw Hin. split_trace Hin GRun.
    + destruct QRun; unfold queueEvents in Hin; in_list Hin; inversion Hin; subst.
      by destruct Htail as [-> _].
    + destruct qres as [err|]; [destruct Htail as [_ ->]; in_list Hin|].
      destruct Htail; in_list Hin.
  - intros ch n k x nw Hin. split_trace Hin GRun.
    + destruct QRun; unfold queueEvents in Hin; in_list Hin; inversion Hin; subst.
      by destruct Htail as [-> _].
    + destruct qres as [err|]; [destruct Htail as [_ ->]; in_list Hin|].
      destruct Htail; in_list Hin.
  - intros ch nw Hin. split_trace Hin GRun.
    + destruct QRun; unfold queueEvents in Hin; in_list Hin.
    + destruct qres as [err|]; [destruct Htail as [_ ->]; in_list Hin|].
      destruct Htail; in_list Hin; inversion Hin; by subst.
  - intros ch nw cres Hin. split_trace Hin GRun.
    + destruct QRun; unfold queueEvents in Hin; in_list Hin.
    + destruct qres as [err|]; [destruct Htail as [_ ->]; in_list Hin|].
      destruct Htail; in_list Hin; inversion Hin; by subst.
Qed.


(** X16. A Publisher and a Consumer made for the same logical queue name,
    by Relays with the same configuration, meet: the queue name the
    Publisher holds as its routing key is the name of the queue the Consumer
    consumes, and each of the two calls has bound that queue to the
    configured exchange under that very key, on the channel its handle
    owns. *)
Theorem handles_of_one_name_meet
    (queue : string) (rp rc : Relay) (wp wc : World S)
    (pub : Publisher) (handle : Consumer) :
  conf rp = conf rc ->
  (Relay_Publisher queue rp wp).1.1 = Ok pub ->
  (Relay_Consumer queue rc wc).1.1 = Ok handle ->
  p_queue pub = c_queue handle /\
  p_conf pub = c_conf handle /\
  (exists chp,
      p_channel pub = Some chp /\
      EvQueueBind chp (c_queue handle) (p_queue pub) (Exchange (p_conf pub)) false None
        ∈ added (Relay_Publisher queue rp) wp) /\
  (exists chc,
      c_channel handle = Some chc /\
      EvQueueBind chc (c_queue handle) (p_queue pub) (Exchange (p_conf pub)) false None
        ∈ added (Relay_Consumer queue rc) wc /\
      EvConsume chc (c_queue handle) (c_consName handle) false false false false
        (Ok (c_deliverCh handle))
        ∈ added (Relay_Consumer queue rc) wc).
Proof.
  intros Hconf Hpub Hcons.
  destruct (Relay_Publisher_ok queue rp wp pub Hpub) as (chp & tail & _ & PT & HevP).
  destruct (Relay_Consumer_ok queue rc wc handle Hcons)
    as (chc & consName & readCh & _ & -> & HevC).
  rewrite HevP, HevC. cbn [c_queue c_conf c_channel c_consName c_deliverCh].
  assert (Hp : p_queue pub = queueName queue /\ p_conf pub = conf rp /\
               p_channel pub = Some chp).
  { remember (Ok pub) as res eqn:Hres.
    destruct PT; try discriminate; injection Hres as <-; by unfold plainPublisher. }
  destruct Hp as (Hq & Hc & Hch). rewrite Hq, Hc, Hch, <- Hconf.
  split; [done|]. split; [done|]. split.
  - exists chp. split; [done|]. unfold queueEvents. set_solver.
  - exists chc. split; [done|]. unfold queueEvents. rewrite Hconf. set_solver.
Qed.

(** X15. getChan leaves its slot empty exactly when it has dialed and the
    dial has failed; the dial error is returned as it is and the Relay is
    unchanged, so that the failure is not remembered: the next call on the
    role dials again. *)
Theorem failed_dial_is_not_remembered (role : Role) (r : Relay) (w : World S) :
  (load role (getChan role r w).1.2 = None <->
     exists e, added (getChan role r) w
                 = [EvLock; EvDial (dialURI (conf r)) (Err e); EvUnlock]) /\
  (forall e,
      EvDial (dialURI (conf r)) (Err e) ∈ added (getChan role r) w ->
      (getChan role r w).1 = (Err e, r) /\
      forall w2 : World S,
        exists res rest,
          added (getChan role r) w2 = EvLock :: EvDial (dialURI (conf r)) res :: rest).
Proof.
  pose proof (getChan_run role r w) as Run.
  assert (Hpair : forall (x : result Chan * Relay) a b, x.1 = a -> x.2 = b -> x = (a, b)).
  { intros [x1 x2] a b; cbn; by intros -> ->. }
  split.
  - split.
    + intros Hempty.
      destruct Run as [c0 ch0 H0|c0 e H0|e H0|nc e H0|nc ch0 H0|nc ch0 e H0];
        rewrite ?load_store in Hempty; try congruence.
      by exists e.
    + intros (e & Hev). rewrite Hev in Run.
      remember [EvLock; EvDial (dialURI (conf r)) (Err e); EvUnlock] as evs eqn:Hevs.
      destruct Run as [c0 ch0 H0|c0 e0 H0|e0 H0|nc e0 H0|nc ch0 H0|nc ch0 e0 H0];
        unfold dialEvents in Hevs; cbn [app] in Hevs; try discriminate; done.
  - intros e Hin.
    remember (getChan role r w).1.1 as res eqn:Hres.
    remember (getChan role r w).1.2 as r' eqn:Hr'.
    destruct Run as [c0 ch0 H0|c0 e0 H0|e0 H0|nc e0 H0|nc ch0 H0|nc ch0 e0 H0];
      unfold dialEvents in Hin; cbn [app] in Hin; in_list Hin.
    injection Hin as ->. split.
    + by apply Hpair.
    + intros w2. by apply getChan_empty_dials.
Qed.

End HandedOut.

(** ** These statements at work on the two brokers *)

Lemma declareQueue_witness :
  (declareQueue Demo.relayPC 3%nat "test"
     (getChan ConsRole Demo.relayPC Demo.bare).2).1
  = Some (Errorf "Failed to bind queue 'test'! Got: Exception (404) Reason: NOT_FOUND").
Proof.
  destruct (declareQueue_declares_then_binds Demo.relayPC 3%nat "test"
              (getChan ConsRole Demo.relayPC Demo.bare).2)
    as (_ & _ & _ & _ & Hbind).
  apply (Hbind Mem.ErrNotFound). by_eval.
Defined.

Lemma getChan_slot_witness :
  (getChan ConsRole Demo.relayPC Demo.bare).1.2 = Demo.relayPC.
Proof.
  destruct (getChan_works_on_its_slot_only ConsRole "test" Demo.relayPC Demo.bare)
    as (_ & _ & Hkeep & _).
  apply (Hkeep 2%nat). reflexivity.
Defined.

Lemma getChan_failed_channel_witness :
  (getChan PubRole Demo.relay0 Flaky.start).1.1 = Err Flaky.NoChannel /\
  load PubRole (getChan PubRole Demo.relay0 Flaky.start).1.2 = Some 0%nat.
Proof.
  destruct (getChan_failed_channel_skips_exchange PubRole Demo.relay0 Flaky.start
              0%nat Flaky.NoChannel) as (Hres & Hslot & _).
  - by_eval.
  - by_eval.
  - split; [exact Hres | exact Hslot].
Defined.

Lemma cleared_slot_witness :
  exists res rest,
    added (getChan PubRole
             (watchConn PubRole [Got Demo.hard] Demo.relayPC Demo.bare).1.2) Demo.bare
    = EvLock :: EvDial (dialURI Demo.filled) res :: rest.
Proof.
  destruct (cleared_slot_is_redialed PubRole [Got Demo.hard] Demo.relayPC
              Demo.bare Demo.bare) as [Hredial _].
  apply Hredial. apply Exists_cons. left. reflexivity.
Defined.

Lemma watchConn_never_closes_witness :
  EvConnClose 0%nat None
    ∉ added (Relay_Close (watchConn PubRole [Got Demo.hard] Demo.relayPC Demo.bare).1.2)
        Demo.bare.
Proof.
  destruct (watchConn_never_closes_the_connection PubRole [Got Demo.hard]
              Demo.relayPC Demo.bare) as (_ & _ & Hleft).
  apply (Hleft 0%nat).
  - reflexivity.
  - discriminate.
  - apply Exists_cons. left. reflexivity.
Defined.

Lemma Relay_Consumer_prefetch_witness :
  EvQos 1%nat 5 0 false None
    ∈ added (Relay_Consumer "pending-nack" (newRelay Demo.prefetch Mem.start))
        (New Demo.prefetch Mem.start).2.
Proof.
  destruct (Relay_Consumer_prefetch "pending-nack" (newRelay Demo.prefetch Mem.start)
              (New Demo.prefetch Mem.start).2) as [_ Hqos].
  apply (Hqos 1%nat "pending-nack" "relay:2" false false false false (Ok 1%nat)).
  - by_eval.
  - reflexivity.
Defined.

Lemma Relay_Consumer_hands_out_witness :
  exists (c : Conn) (ch : Chan) (consName : string) (readCh : Stream),
    Demo.cons1 = mkConsumer Demo.filled consName "test" (Some ch) readCh 0 false /\
    EvChannel c (Ok ch)
      ∈ added (getChan ConsRole Demo.relayP)
          (Relay_Publisher "test" Demo.relay0 (New Demo.plain Mem.start).2).2.
Proof.
  destruct (Relay_Consumer_hands_out "test" Demo.relayP
              (Relay_Publisher "test" Demo.relay0 (New Demo.plain Mem.start).2).2
              Demo.cons1) as (c & ch & consName & readCh & _ & Hopen & Hhandle & _).
  - vm_compute. reflexivity.
  - by exists c, ch, consName, readCh.
Defined.

Lemma Relay_Consumer_errors_witness :
  (Relay_Consumer "test" Demo.relayPC Demo.bare).1.1
  = Err (Errorf "Failed to bind queue 'test'! Got: Exception (404) Reason: NOT_FOUND").
Proof.
  destruct (Relay_Consumer_errors "test" Demo.relayPC Demo.bare Mem.ErrNotFound)
    as (_ & _ & Hbind & _).
  apply (Hbind 3%nat "test" "test" "relay" false). by_eval.
Defined.

Lemma Relay_Publisher_hands_out_witness :
  exists (c : Conn) (ch : Chan),
    p_channel Demo.pub1 = Some ch /\
    EvChannel c (Ok ch)
      ∈ added (getChan PubRole Demo.relay0) (New Demo.plain Mem.start).2.
Proof.
  destruct (Relay_Publisher_hands_out "test" Demo.relay0 (New Demo.plain Mem.start).2
              Demo.pub1) as (c & ch & _ & Hopen & Hch & _).
  - vm_compute. reflexivity.
  - by exists c, ch.
Defined.

Lemma Relay_Publisher_errors_witness :
  (Relay_Publisher "test" Demo.relayPC Demo.bare).1.1
  = Err (Errorf "Failed to bind queue 'test'! Got: Exception (404) Reason: NOT_FOUND").
Proof.
  destruct (Relay_Publisher_errors "test" Demo.relayPC Demo.bare Mem.ErrNotFound)
    as (_ & _ & Hbind & _).
  apply (Hbind 3%nat "test" "test" "relay" false). by_eval.
Defined.

Lemma handles_of_one_name_witness :
  p_queue Demo.pub1 = c_queue Demo.cons1 /\ p_conf Demo.pub1 = c_conf Demo.cons1.
Proof.
  destruct (handles_of_one_name_meet "test" Demo.relay0 Demo.relayP
              (New Demo.plain Mem.start).2
              (Relay_Publisher "test" Demo.relay0 (New Demo.plain Mem.start).2).2
              Demo.pub1 Demo.cons1) as (Hq & Hc & _).
  - reflexivity.
  - vm_compute. reflexivity.
  - vm_compute. reflexivity.
  - split; [exact Hq | exact Hc].
Defined.

Lemma failed_dial_witness :
  (getChan ConsRole (newRelay Demo.nohost Mem.start) Mem.start).1
  = (Err Mem.ErrRefused, newRelay Demo.nohost Mem.start).
Proof.
  destruct (failed_dial_is_not_remembered ConsRole (newRelay Demo.nohost Mem.start)
              Mem.start) as [_ Hfail].
  apply (Hfail Mem.ErrRefused). by_eval.
Defined.
